(** * video_splitter: timestamps, sections and the configuration loader

    A shallow embedding of [src/video_splitter/splitter.py], in two
    parts.

    The first part computes with exact numbers: a Python [int] is a
    [Z], a finite [float] is the rational number it denotes, kept in
    lowest terms, and nothing is rounded.  It carries the statements
    that do not depend on how Python rounds: what the patterns match,
    what the loader builds, the texts that come out as zero, and the
    values of the documents evaluated, on which binary64 agrees with it
    (whole numbers far under 2^53 and halves of them).

    The second part, the module [B64], embeds the same functions with
    the numbers as CPython computes them: binary64 floats rounded to
    nearest, the infinities and not-a-number, [OverflowError] when an
    int is too large for the float it has to become, the 4300-digit
    limit of [int()] and [str()], and the directory and the child
    process as effects that may fail.  What depends on rounding, on
    overflow, on the length of a run of digits or on the surroundings
    is stated there.

    Common to both parts:

    - A Python [str] is a [string] whose characters are code points below
      256, so [\d] is the class 0-9.
    - An exception is a constructor of [PyError]; a function that may
      raise returns a [result].
    - [yaml.safe_load] is the boundary on the side of the input:
      [load_config] starts from the parsed document.  In the first part
      [extract_section] stops at the argument vector; in [B64] it goes
      on to the two calls it makes. *)

From Stdlib Require Import ZArith QArith Qround Qabs.
From Stdlib Require Import String Ascii List Bool Lia Lqa.
Import ListNotations.

Local Open Scope Z_scope.

(** ** Exceptions and the error monad *)

Inductive PyError : Type :=
| AssertionError (msg : string)      (* [assert ..., f'Invalid time format: {t}'] *)
| ValueError (msg : string)          (* [raise ValueError(...)], [int(nan)] *)
| OverflowError
| TypeError (msg : string)
| AttributeError (msg : string).

Inductive result (A : Type) : Type :=
| Ok (a : A)
| Raise (e : PyError).
Arguments Ok {A} a.
Arguments Raise {A} e.

Definition bind {A B : Type} (r : result A) (f : A -> result B) : result B :=
  match r with
  | Ok a => f a
  | Raise e => Raise e
  end.

Declare Scope py_scope.
Delimit Scope py_scope with py.
Notation "x <- r ;; k" := (bind r (fun x => k))
  (at level 61, r at next level, right associativity) : py_scope.

(** ** Python numbers *)

(** A finite number as it sits in a [Timestamp]: the constructor is the
    Python type, the payload the exact value. *)
Inductive PyNum : Type :=
| PInt (z : Z)
| PFloat (q : Q).

(** A float as [float()] returns it. *)
Inductive pyfloat : Type :=
| F_fin (q : Q)
| F_inf (negative : bool)
| F_nan.

Module Num.

Definition val (x : PyNum) : Q :=
  match x with
  | PInt z => inject_Z z
  | PFloat q => q
  end.

(** [q // d] and [q % d] on floats, for a positive divisor. *)
Definition qfloordiv (q d : Q) : Q := inject_Z (Qfloor (q / d)%Q).
Definition qmod (q d : Q) : Q := Qred (q - d * inject_Z (Qfloor (q / d)))%Q.

(** [x + y]: int with int stays int, anything else is a float. *)
Definition add (x y : PyNum) : PyNum :=
  match x, y with
  | PInt a, PInt b => PInt (a + b)
  | _, _ => PFloat (Qred (val x + val y)%Q)
  end.

Definition sub (x y : PyNum) : PyNum :=
  match x, y with
  | PInt a, PInt b => PInt (a - b)
  | _, _ => PFloat (Qred (val x - val y)%Q)
  end.

Definition mul (x y : PyNum) : PyNum :=
  match x, y with
  | PInt a, PInt b => PInt (a * b)
  | _, _ => PFloat (Qred (val x * val y)%Q)
  end.

(** [x // d] and [x % d] with an int literal [d] on the right. *)
Definition floordiv (x : PyNum) (d : Z) : PyNum :=
  match x with
  | PInt a => PInt (a / d)
  | PFloat q => PFloat (qfloordiv q (inject_Z d))
  end.

Definition modulo (x : PyNum) (d : Z) : PyNum :=
  match x with
  | PInt a => PInt (a mod d)
  | PFloat q => PFloat (qmod q (inject_Z d))
  end.

(** [x >= d] with an int literal on the right. *)
Definition geb (x : PyNum) (d : Z) : bool :=
  match Qcompare (val x) (inject_Z d) with
  | Lt => false
  | _ => true
  end.

(** [x == y]: Python compares numbers by value across the two types. *)
Definition eqb (x y : PyNum) : bool := Qeq_bool (val x) (val y).

End Num.

(** ** Strings and character classes *)

Definition code (c : ascii) : N := N_of_ascii c.

Definition is_char (a c : ascii) : bool := Ascii.eqb a c.

Definition one_of (cs : string) (c : ascii) : bool :=
  existsb (is_char c) (list_ascii_of_string cs).

(** [\d] *)
Definition is_digit (c : ascii) : bool :=
  (48 <=? code c)%N && (code c <=? 57)%N.

(** [\s]: tab to carriage return, the four separators 0x1c-0x1f, space,
    NEL and no-break space. *)
Definition is_space (c : ascii) : bool :=
  ((9 <=? code c)%N && (code c <=? 13)%N)
  || ((28 <=? code c)%N && (code c <=? 32)%N)
  || (code c =? 133)%N || (code c =? 160)%N.

(** What [float()] strips from both ends: the same without the four
    separators. *)
Definition is_float_space (c : ascii) : bool :=
  ((9 <=? code c)%N && (code c <=? 13)%N)
  || (code c =? 32)%N || (code c =? 133)%N || (code c =? 160)%N.

Definition digit_val (c : ascii) : Z := Z.of_N (code c) - 48.

(** The value of a run of decimal digits, most significant first. *)
Definition digits_val (ds : list ascii) : Z :=
  fold_left (fun acc c => 10 * acc + digit_val c) ds 0.

(** ** [re]: the fragment of regular expressions the two patterns use *)

Module Re.

Inductive regex : Type :=
| Cls (p : ascii -> bool)            (* one character of a class *)
| Seq (r1 r2 : regex)                (* r1 r2 *)
| Opt (r : regex)                    (* r?  or (r)?, greedy *)
| Plus (p : ascii -> bool)           (* class+, greedy *)
| Star (p : ascii -> bool)           (* class*, greedy *)
| Group (name : string) (r : regex). (* (?P<name>r) *)

(** [groupdict()]: a name that took no part in the match is absent,
    which is Python's [None]. *)
Definition groups : Type := list (string * list ascii).

Fixpoint get (name : string) (g : groups) : option (list ascii) :=
  match g with
  | [] => None
  | (n, v) :: g' => if String.eqb n name then Some v else get name g'
  end.

Definition set (name : string) (v : list ascii) (g : groups) : groups :=
  (name, v) :: g.

Section Matcher.
Context {A : Type}.

(** Greedy repetition of a class: the longest run first, then one
    character less at a time. *)
Fixpoint star (p : ascii -> bool) (s : list ascii)
         (k : list ascii -> option A) : option A :=
  match s with
  | c :: s' =>
      if p c then
        match star p s' k with
        | Some x => Some x
        | None => k s
        end
      else k s
  | [] => k s
  end.

Definition plus (p : ascii -> bool) (s : list ascii)
           (k : list ascii -> option A) : option A :=
  match s with
  | c :: s' => if p c then star p s' k else None
  | [] => None
  end.

(** Backtracking match of [r] at the head of [s]; [k] is the rest of
    the pattern.  The text of a group is what the group consumed. *)
Fixpoint run (r : regex) (s : list ascii) (g : groups)
         (k : list ascii -> groups -> option A) : option A :=
  match r with
  | Cls p =>
      match s with
      | c :: s' => if p c then k s' g else None
      | [] => None
      end
  | Seq r1 r2 => run r1 s g (fun s' g' => run r2 s' g' k)
  | Opt r1 =>
      match run r1 s g k with
      | Some x => Some x
      | None => k s g
      end
  | Plus p => plus p s (fun s' => k s' g)
  | Star p => star p s (fun s' => k s' g)
  | Group name r1 =>
      run r1 s g
          (fun s' g' =>
             k s' (set name (firstn (length s - length s') s) g'))
  end.
End Matcher.

(** [re.match(r, s)]: anchored at the start, any tail is left over. *)
Definition re_match (r : regex) (s : list ascii) : option groups :=
  run r s [] (fun _ g => Some g).

End Re.

Import Re.

Definition digits : regex := Plus is_digit.
Definition lit (c : ascii) : regex := Cls (is_char c).

(** ** [float(str)] *)

Module FloatStr.

Fixpoint lstrip (s : list ascii) : list ascii :=
  match s with
  | c :: s' => if is_float_space c then lstrip s' else s
  | [] => []
  end.

Definition strip (s : list ascii) : list ascii :=
  rev (lstrip (rev (lstrip s))).

(** [digit (["_"] digit)*] after its first digit: the digits read,
    without the underscores, and what follows them. *)
Fixpoint digitpart_rest (s : list ascii) : list ascii * list ascii :=
  match s with
  | c :: s' =>
      if is_digit c then
        let (ds, r) := digitpart_rest s' in (c :: ds, r)
      else if is_char "_" c then
        match s' with
        | c' :: _ => if is_digit c' then digitpart_rest s' else ([], s)
        | [] => ([], s)
        end
      else ([], s)
  | [] => ([], [])
  end.

Definition digitpart (s : list ascii) : option (list ascii * list ascii) :=
  match s with
  | c :: s' =>
      if is_digit c then
        let (ds, r) := digitpart_rest s' in Some (c :: ds, r)
      else None
  | [] => None
  end.

(** An optional ["+"] or ["-"]: whether it was a minus, and the rest. *)
Definition sign (s : list ascii) : bool * list ascii :=
  match s with
  | c :: s' =>
      if is_char "-" c then (true, s')
      else if is_char "+" c then (false, s')
      else (false, s)
  | [] => (false, [])
  end.

(** [[digitpart] "." digitpart | digitpart ["."]]: integer digits,
    fraction digits and the rest. *)
Definition number (s : list ascii)
  : option (list ascii * list ascii * list ascii) :=
  match digitpart s with
  | Some (ip, r) =>
      match r with
      | c :: r' =>
          if is_char "." c then
            match digitpart r' with
            | Some (fp, r'') => Some (ip, fp, r'')
            | None => Some (ip, [], r')
            end
          else Some (ip, [], r)
      | [] => Some (ip, [], [])
      end
  | None =>
      match s with
      | c :: r' =>
          if is_char "." c then
            match digitpart r' with
            | Some (fp, r'') => Some ([], fp, r'')
            | None => None
            end
          else None
      | [] => None
      end
  end.

(** [("e" | "E") [sign] digitpart], to the end of the text. *)
Definition exponent (s : list ascii) : option Z :=
  match s with
  | [] => Some 0
  | c :: s' =>
      if one_of "eE" c then
        let (neg, s'') := sign s' in
        match digitpart s'' with
        | Some (ds, []) =>
            Some (if neg then - digits_val ds else digits_val ds)
        | _ => None
        end
      else None
  end.

Definition lower (c : ascii) : ascii :=
  if ((65 <=? code c)%N && (code c <=? 90)%N)%bool
  then ascii_of_N (code c + 32) else c.

Definition same_word (w : string) (s : list ascii) : bool :=
  String.eqb w (string_of_list_ascii (map lower s)).

(** The value [m * 10^e] in lowest terms. *)
Definition scale (m e : Z) : Q :=
  match e with
  | Z0 => inject_Z m
  | Zpos p => inject_Z (m * Z.pow_pos 10 p)
  | Zneg p => Qred (m # Pos.pow 10 p)
  end.

(** [float(s)] for a [str]: [None] is the [ValueError]. *)
Definition float_of_string (s : string) : option pyfloat :=
  let (neg, body) := sign (strip (list_ascii_of_string s)) in
  if same_word "inf" body || same_word "infinity" body then
    Some (F_inf neg)
  else if same_word "nan" body then Some F_nan
  else
    match number body with
    | Some (ip, fp, r) =>
        match exponent r with
        | Some e =>
            let m := digits_val (ip ++ fp) in
            let q := scale m (e - Z.of_nat (length fp)) in
            Some (F_fin (if neg then Qred (- q) else q))
        | None => None
        end
    | None => None
    end.

End FloatStr.

Definition float_of_string := FloatStr.float_of_string.

(** ** The data model *)

(** [class Timestamp(NamedTuple)]: the annotations say [int], the values
    are whatever [parse_time] computed.  The plain tuple [(0,0,0)] of
    [load_config] is a [Timestamp] here: the two compare equal. *)
Record Timestamp : Type := mkTimestamp {
  ts_h : PyNum;
  ts_m : PyNum;
  ts_s : PyNum
}.

(** [==] on timestamps: tuple equality, componentwise by value. *)
Definition ts_eqb (a b : Timestamp) : bool :=
  Num.eqb (ts_h a) (ts_h b) && Num.eqb (ts_m a) (ts_m b)
  && Num.eqb (ts_s a) (ts_s b).

(** What the attribute [end] of a [Section] holds at run time.  The
    annotation is [Timestamp | None]; [load_config] also stores an int. *)
Inductive EndValue : Type :=
| E_None
| E_Time (t : Timestamp)
| E_Int (z : Z).

(** [@dataclass class Section] *)
Record Section : Type := mkSection {
  name : string;
  start : Timestamp;
  end_ : EndValue
}.

Definition Cfg : Type := list Section.

(** [h * 3600 + m * 60 + s] of a timestamp, as [start_seconds] and
    [duration] both spell it out. *)
Definition seconds_of (t : Timestamp) : PyNum :=
  Num.add (Num.add (Num.mul (ts_h t) (PInt 3600)) (Num.mul (ts_m t) (PInt 60)))
          (ts_s t).

(** [Section.start_seconds] *)
Definition start_seconds (self : Section) : PyNum :=
  seconds_of (start self).

(** [Section.duration]: [None] when [end is None]; indexing an int
    raises. *)
Definition duration (self : Section) : result (option PyNum) :=
  match end_ self with
  | E_None => Ok None
  | E_Time e =>
      let end_seconds := seconds_of e in
      Ok (Some (Num.sub end_seconds (start_seconds self)))
  | E_Int _ => Raise (TypeError "'int' object is not subscriptable")
  end.

(** A value of the parsed YAML document. *)
#[local] Set Warnings "-register-all".
Inductive YamlValue : Type :=
| YNone
| YBool (b : bool)
| YInt (z : Z)
| YFloat (x : pyfloat)
| YStr (s : string)
| YList (l : list YamlValue)
| YDict (items : list (string * YamlValue)).

(** ** [parse_time] *)

(** [float(t)] *)
Definition float_ (t : YamlValue) : result pyfloat :=
  match t with
  | YStr s =>
      match float_of_string s with
      | Some x => Ok x
      | None => Raise (ValueError "could not convert string to float")
      end
  | YInt z => Ok (F_fin (inject_Z z))
  | YFloat x => Ok x
  | YBool b => Ok (F_fin (if b then 1 else 0))
  | YNone | YList _ | YDict _ =>
      Raise (TypeError "float() argument must be a string or a real number")
  end.

(** [int(x)] for a float: truncation; [nan] and the infinities raise. *)
Definition int_of_float (x : pyfloat) : result Z :=
  match x with
  | F_fin q => Ok (if Qle_bool 0 q then Qfloor q else Qceiling q)
  | F_inf _ => Raise OverflowError
  | F_nan => Raise (ValueError "cannot convert float NaN to integer")
  end.

(** [x // d], [x % d] and [x * d] for a float [x] and a positive int
    literal [d]; an infinity has no quotient and no remainder. *)
Definition float_floordiv (x : pyfloat) (d : Z) : pyfloat :=
  match x with
  | F_fin q => F_fin (Num.qfloordiv q (inject_Z d))
  | _ => F_nan
  end.

Definition float_mod (x : pyfloat) (d : Z) : pyfloat :=
  match x with
  | F_fin q => F_fin (Num.qmod q (inject_Z d))
  | _ => F_nan
  end.

Definition float_mul (x : pyfloat) (d : Z) : pyfloat :=
  match x with
  | F_fin q => F_fin (Qred (q * inject_Z d))
  | other => other
  end.

(** Lines 54-57, the branch [isinstance(t, float)].  The third
    component of a float that passed both [int()] calls is finite. *)
Definition minutes_shape (t : pyfloat) : result Timestamp :=
  (h <- int_of_float (float_floordiv t 60) ;;
   m <- int_of_float (float_mod t 60) ;;
   match float_mul (float_mod t 1) 60 with
   | F_fin s => Ok (mkTimestamp (PInt h) (PInt m) (PFloat s))
   | _ => Raise (ValueError "cannot convert float NaN to integer")
   end)%py.

Definition colon_re : regex :=
  Seq (Opt (Group "hours" digits))
      (Seq (lit ":")
           (Seq (Group "minutes" digits)
                (Seq (lit ":") (Group "seconds" digits)))).

(** One optional component of [letter_re]: a named run of digits, one
    of the two suffix letters, an optional comma and any white space,
    the whole of it optional. *)
Definition letter_part (group : string) (suffix : string) : regex :=
  Opt (Seq (Group group digits)
           (Seq (Cls (one_of suffix))
                (Seq (Opt (lit ",")) (Star is_space)))).

Definition letter_re : regex :=
  Seq (letter_part "hours" "hH")
      (Seq (letter_part "minutes" "mM") (letter_part "seconds" "sS")).

(** [int(text)] for the text of a [\d+] group. *)
Definition int_of_digits (ds : list ascii) : result Z :=
  match ds with
  | [] => Raise (ValueError "invalid literal for int()")
  | _ =>
      if forallb is_digit ds then Ok (digits_val ds)
      else Raise (ValueError "invalid literal for int()")
  end.

(** [float(text)] for the text of a [\d+] group. *)
Definition float_of_digits (ds : list ascii) : result PyNum :=
  match float_of_string (string_of_list_ascii ds) with
  | Some (F_fin q) => Ok (PFloat q)
  | _ => Raise (ValueError "could not convert string to float")
  end.

(** [int(groups[k]) if groups[k] is not None else 0] *)
Definition int_or_zero (g : groups) (k : string) : result PyNum :=
  match get k g with
  | Some ds => (z <- int_of_digits ds ;; Ok (PInt z))%py
  | None => Ok (PInt 0)
  end.

(** Lines 59-73: the three components before any carry. *)
Definition raw_components (t : string) : result (PyNum * PyNum * PyNum) :=
  let text := list_ascii_of_string t in
  match re_match colon_re text with
  | Some g =>
      (h <- int_or_zero g "hours" ;;
       m <- match get "minutes" g with
            | Some ds => (z <- int_of_digits ds ;; Ok (PInt z))
            | None => Raise (TypeError "int() argument must not be None")
            end ;;
       s <- match get "seconds" g with
            | Some ds => float_of_digits ds
            | None => Raise (TypeError "float() argument must not be None")
            end ;;
       Ok (h, m, s))%py
  | None =>
      match re_match letter_re text with
      | None => Raise (AssertionError ("Invalid time format: " ++ t))
      | Some g =>
          (h <- int_or_zero g "hours" ;;
           m <- int_or_zero g "minutes" ;;
           s <- match get "seconds" g with
                | Some ds => float_of_digits ds
                | None => Ok (PInt 0)
                end ;;
           Ok (h, m, s))%py
      end
  end.

(** Lines 75-81: seconds carry into minutes, then minutes into hours. *)
Definition normalize (hms : PyNum * PyNum * PyNum) : Timestamp :=
  let '(h, m, s) := hms in
  let '(m, s) :=
    if Num.geb s 60 then (Num.add m (Num.floordiv s 60), Num.modulo s 60)
    else (m, s) in
  let '(h, m) :=
    if Num.geb m 60 then (Num.add h (Num.floordiv m 60), Num.modulo m 60)
    else (h, m) in
  mkTimestamp h m s.

Definition parse_time (t : YamlValue) : result Timestamp :=
  match float_ t with
  | Ok x => minutes_shape x
  | Raise (ValueError _) =>
      (* except ValueError: pass -- [t] is still the argument *)
      match t with
      | YFloat x => minutes_shape x
      | YStr text => (hms <- raw_components text ;; Ok (normalize hms))%py
      | _ => Raise (TypeError "expected string or bytes-like object")
      end
  | Raise e => Raise e
  end.

(** ** [extract_section] and [split_file], up to the argument vector *)

(** [pathlib.Path], as far as the program looks at it: what [str()] and
    [.suffix] return. *)
Record Path : Type := mkPath {
  path_text : string;
  path_suffix : string
}.

(** One element of [args].  [str()] of a number, of [None] and of the
    output path are kept symbolic. *)
Inductive Arg : Type :=
| Word (w : string)
| StrNum (x : PyNum)
| StrNone
| OutFile (out_dir : Path) (file_name : string).

Definition str_opt (d : option PyNum) : Arg :=
  match d with
  | Some x => StrNum x
  | None => StrNone
  end.

(** Lines 86-91. *)
Definition duration_flag (section : Section) : result (list Arg) :=
  match end_ section with
  | E_None => Ok []
  | _ => (d <- duration section ;; Ok [Word "-t"; str_opt d])%py
  end.

(** The vector handed to [subprocess.check_call]. *)
Definition extract_section (input out_dir : Path) (section : Section)
  : result (list Arg) :=
  (flag <- duration_flag section ;;
   let filename := OutFile out_dir (name section ++ path_suffix input) in
   Ok ([Word "ffmpeg"; Word "-i"; Word (path_text input);
        Word "-c"; Word "copy";
        Word "-ss"; StrNum (start_seconds section)]
         ++ flag ++ [filename]))%py.

(** One vector per section, in order; the first failure ends the run. *)
Fixpoint split_file (file out_dir : Path) (cfg : Cfg)
  : result (list (list Arg)) :=
  match cfg with
  | [] => Ok []
  | section :: rest =>
      (args <- extract_section file out_dir section ;;
       more <- split_file file out_dir rest ;;
       Ok (args :: more))%py
  end.

(** ** [load_config], from the parsed document on *)

(** [k in d] and [d[k]] in one: the value under a key of a dict. *)
Fixpoint lookup (k : string) (d : list (string * YamlValue))
  : option YamlValue :=
  match d with
  | [] => None
  | (k', v) :: d' => if String.eqb k' k then Some v else lookup k d'
  end.

(** [isinstance(v, (float, int))]; [bool] is a subclass of [int]. *)
Definition isinstance_float_int (v : YamlValue) : bool :=
  match v with
  | YFloat _ | YInt _ | YBool _ => true
  | _ => false
  end.

(** The spec's [InvalidSectionConfig]; the rendering of the value at the
    end of the message is left out. *)
Definition invalid_section_config : PyError :=
  ValueError "Invalid section config".

(** The body of the loop, lines 118-127, for one item. *)
Definition build_section (prev_start : Timestamp) (k : string) (v : YamlValue)
  : result Section :=
  let section_cfg := mkSection k prev_start (E_Int (-1)) in
  match v with
  | YDict d =>
      (section_cfg <-
         match lookup "start" d with
         | Some x =>
             (t <- parse_time x ;;
              Ok (mkSection (name section_cfg) t (end_ section_cfg)))
         | None => Ok section_cfg
         end ;;
       match lookup "end" d with
       | Some x =>
           (t <- parse_time x ;;
            Ok (mkSection (name section_cfg) (start section_cfg) (E_Time t)))
       | None => Ok section_cfg
       end)%py
  | _ =>
      if isinstance_float_int v then
        (* section_cfg['end'] = v *)
        Raise (TypeError "'Section' object does not support item assignment")
      else Raise invalid_section_config
  end.

(** The loop: [prev_start] is read in every round and assigned in none. *)
Fixpoint load_loop (prev_start : Timestamp) (items : list (string * YamlValue))
         (sections : list Section) : result (list Section) :=
  match items with
  | [] => Ok sections
  | (k, v) :: rest =>
      (section_cfg <- build_section prev_start k v ;;
       load_loop prev_start rest (sections ++ [section_cfg]))%py
  end.

Definition zero_tuple : Timestamp := mkTimestamp (PInt 0) (PInt 0) (PInt 0).

Definition load_config (cfg : YamlValue) : result Cfg :=
  match cfg with
  | YDict items => load_loop zero_tuple items []
  | _ => Raise (AttributeError "object has no attribute 'items'")
  end.

(** ** Predicates used by the statements *)

(** The text of a [\d+] group: at least one character, all digits. *)
Definition digit_text (ds : list ascii) : Prop :=
  ds <> [] /\ forallb is_digit ds = true.

Definition digit_groups (g : groups) : Prop :=
  forall n ds, In (n, ds) g -> digit_text ds.

(** Every named group of the pattern is [\d+]. *)
Fixpoint captures_digits (r : regex) : Prop :=
  match r with
  | Group _ r1 => r1 = digits
  | Seq r1 r2 => captures_digits r1 /\ captures_digits r2
  | Opt r1 => captures_digits r1
  | Cls _ | Plus _ | Star _ => True
  end.

(** ** The documents the statements evaluate *)

Definition cascade_document : YamlValue :=
  YDict [("A", YDict [("end", YStr "1:00:00")]);
         ("B", YDict [("end", YStr "2:00:00")])]%string.

Definition open_ended_document : YamlValue :=
  YDict [("A", YDict [("start", YStr "0:00:10")])]%string.

Definition open_ended_section : Section :=
  mkSection "A" (mkTimestamp (PInt 0) (PInt 0) (PFloat 10)) (E_Int (-1)).

(** ** [str.replace] and [str.strip], and the two places that use them *)

Module Str.

(** [s.startswith(old)] *)
Fixpoint starts_with (old s : list ascii) : bool :=
  match old, s with
  | [], _ => true
  | a :: old', c :: s' => Ascii.eqb a c && starts_with old' s'
  | _ :: _, [] => false
  end.

(** [s.replace(old, new)] for a non-empty [old]: occurrences are taken
    from the left and do not overlap.  [skip] counts the characters of
    the occurrence just replaced that are still to be passed over. *)
Fixpoint replace_from (old new : list ascii) (skip : nat) (s : list ascii)
  : list ascii :=
  match s with
  | [] => []
  | c :: s' =>
      match skip with
      | S n => replace_from old new n s'
      | O =>
          if starts_with old s
          then new ++ replace_from old new (length old - 1) s'
          else c :: replace_from old new 0 s'
      end
  end.

Definition replace (old new s : list ascii) : list ascii :=
  replace_from old new 0 s.

Fixpoint lstrip (s : list ascii) : list ascii :=
  match s with
  | c :: s' => if is_space c then lstrip s' else s
  | [] => []
  end.

(** [s.strip()] *)
Definition strip (s : list ascii) : list ascii :=
  rev (lstrip (rev (lstrip s))).

End Str.

Definition tab : ascii := ascii_of_nat 9.
Definition space : ascii := " "%char.
Definition backslash : ascii := "\"%char.

(** [load_config], line 112: the text that goes to [yaml.safe_load]. *)
Definition untabbed (contents : list ascii) : list ascii :=
  Str.replace [tab] [space; space; space; space] contents.

(** [__main__], lines 5 and 6: the path made of what was typed at a
    prompt, [input(...).strip().replace(r"\ ", " ")]. *)
Definition dragged_path (typed : list ascii) : list ascii :=
  Str.replace [backslash; space] [space] (Str.strip typed).

(** ** Texts the statements are about *)

(** What a terminal writes for a dragged file name with spaces: a
    backslash before every space. *)
Definition shell_escaped (path : list ascii) : list ascii :=
  flat_map (fun c => if Ascii.eqb c space then [backslash; space] else [c])
           path.

(** The text begins with none of the characters of a class: it is empty
    or its first character is outside the class. *)
Definition head_not (p : ascii -> bool) (s : list ascii) : bool :=
  match s with
  | [] => true
  | c :: _ => negb (p c)
  end.

(** What [,?\s*] reads in full: an optional comma, then white space. *)
Definition is_separator (sep : list ascii) : bool :=
  match sep with
  | c :: ws => if is_char "," c then forallb is_space ws
               else forallb is_space sep
  | [] => true
  end.

(** A component that may be missing: its digits when it is there. *)
Definition opt_digit_text (d : option (list ascii)) : Prop :=
  match d with
  | Some ds => digit_text ds
  | None => True
  end.

Definition opt_digits_val (d : option (list ascii)) : Z :=
  match d with
  | Some ds => digits_val ds
  | None => 0
  end.

Definition opt_text (d : option (list ascii)) : list ascii :=
  match d with
  | Some ds => ds
  | None => []
  end.

(** One component of the letter shape as it is written: digits, the
    unit letter and a separator; nothing when the component is left
    out. *)
Definition letter_component (d : option (list ascii)) (unit_letter : ascii)
           (sep : list ascii) : list ascii :=
  match d with
  | Some ds => ds ++ unit_letter :: sep
  | None => []
  end.

(** The group a component leaves behind. *)
Definition opt_group (name : string) (d : option (list ascii)) : groups :=
  match d with
  | Some ds => [(name, ds)]
  | None => []
  end.

(** An entry loads when it is a mapping whose [start] and [end], where
    given, parse. *)
Definition entry_loads (v : YamlValue) : Prop :=
  exists d,
    v = YDict d
    /\ (forall x, lookup "start" d = Some x -> exists t, parse_time x = Ok t)
    /\ (forall y, lookup "end" d = Some y -> exists t, parse_time y = Ok t).



(** * The numbers as CPython computes them

    The definitions above compute with exact rationals.  This part
    embeds the same functions again with Python's numbers as they are:
    a [float] is an IEEE 754 binary64 value and every float operation
    rounds to nearest, ties to even; [int] with [float] converts the
    int first and raises [OverflowError] when it is out of range;
    [int()] and [str()] refuse more than 4300 digits
    ([sys.int_max_str_digits], the default since 3.10.7 and 3.11); a
    finite float is the rational it is equal to, so the sign of a zero
    is not kept ([==] does not see it). *)

Module B64.

(** Nearest integer to [n / d], ties to even, for [0 <= n] and [0 < d]. *)
Definition round_half_even (n d : Z) : Z :=
  let q := n / d in
  match 2 * (n mod d) ?= d with
  | Lt => q
  | Gt => q + 1
  | Eq => if Z.even q then q else q + 1
  end.

(** [floor (log2 (n / d))] for [0 < n] and [0 < d]. *)
Definition log2_ratio (n d : Z) : Z :=
  let e := Z.log2 n - Z.log2 d in
  if (if 0 <=? e then n <? d * 2 ^ e else n * 2 ^ (- e) <? d)
  then e - 1 else e.

(** The binary64 value nearest to [n / d] for [0 < n] and [0 < d], with
    the sign given apart: 53 significant bits, the smallest step
    [2^-1074], an infinity from [2^1024] on. *)
Definition nearest (negative : bool) (n d : Z) : pyfloat :=
  let step := Z.max (log2_ratio n d - 52) (-1074) in
  let mag : Q :=
    if step <=? 0
    then Qred (round_half_even (n * 2 ^ (- step)) d # Z.to_pos (2 ^ (- step)))
    else inject_Z (round_half_even n (d * 2 ^ step) * 2 ^ step) in
  if Qle_bool (inject_Z (2 ^ 1024)) mag then F_inf negative
  else F_fin (if negative then Qred (- mag) else mag).

(** What a float operation returns for the exact result [q]. *)
Definition round64 (q : Q) : pyfloat :=
  let r := Qred q in
  if Qnum r =? 0 then F_fin 0
  else nearest (Qnum r <? 0) (Z.abs (Qnum r)) (Zpos (Qden r)).

(** ** Float arithmetic *)

Definition fneg (x : pyfloat) : pyfloat :=
  match x with
  | F_fin a => F_fin (Qred (- a))
  | F_inf s => F_inf (negb s)
  | F_nan => F_nan
  end.

Definition fadd (x y : pyfloat) : pyfloat :=
  match x, y with
  | F_nan, _ | _, F_nan => F_nan
  | F_inf a, F_inf b => if Bool.eqb a b then F_inf a else F_nan
  | F_inf a, F_fin _ => F_inf a
  | F_fin _, F_inf b => F_inf b
  | F_fin a, F_fin b => round64 (a + b)
  end.

Definition fsub (x y : pyfloat) : pyfloat := fadd x (fneg y).

Definition fmul (x y : pyfloat) : pyfloat :=
  match x, y with
  | F_nan, _ | _, F_nan => F_nan
  | F_inf a, F_inf b => F_inf (xorb a b)
  | F_inf a, F_fin b =>
      if Qeq_bool b 0 then F_nan else F_inf (xorb a (Qnum b <? 0))
  | F_fin a, F_inf b =>
      if Qeq_bool a 0 then F_nan else F_inf (xorb (Qnum a <? 0) b)
  | F_fin a, F_fin b => round64 (a * b)
  end.

(** C's [fmod(v, w)] for [0 < w]: exact, with the sign of [v]. *)
Definition fmod (v w : Q) : Q :=
  let r := (Qabs v - w * inject_Z (Qfloor (Qabs v / w)))%Q in
  Qred (if Qnum v <? 0 then - r else r).

(** [x % d] for a float [x] and a positive int literal [d]
    ([float_rem]): the remainder of [fmod], moved up by [d] when it is
    negative. *)
Definition float_mod (x : pyfloat) (d : Z) : pyfloat :=
  match x with
  | F_fin v =>
      let m := fmod v (inject_Z d) in
      if Qeq_bool m 0 then F_fin 0
      else if Qnum m <? 0 then round64 (m + inject_Z d)
      else F_fin m
  | _ => F_nan
  end.

(** [x // d] for a float [x] and a positive int literal [d]
    ([float_floor_div]): the quotient [(x - fmod) / d], one less when
    the remainder was moved up, then snapped to an integer. *)
Definition float_floordiv (x : pyfloat) (d : Z) : pyfloat :=
  match x with
  | F_fin v =>
      let w := inject_Z d in
      let m := fmod v w in
      let div :=
        match round64 (v - m) with
        | F_fin a => round64 (a / w)
        | other => other
        end in
      let div :=
        if Qeq_bool m 0 then div
        else if Qnum m <? 0 then fsub div (F_fin 1) else div in
      match div with
      | F_fin dv =>
          if Qeq_bool dv 0 then F_fin 0
          else
            let fl := inject_Z (Qfloor dv) in
            match round64 (dv - fl) with
            | F_fin gap =>
                if Qle_bool gap (1 # 2) then F_fin fl else round64 (fl + 1)
            | _ => F_fin fl
            end
      | other => other
      end
  | _ => F_nan
  end.

(** ** Numbers: [int] and [float] *)

Inductive num : Type :=
| Int (z : Z)
| Float (x : pyfloat).

(** The conversion of an operand that meets a float. *)
Definition to_float (x : num) : result pyfloat :=
  match x with
  | Int z =>
      match round64 (inject_Z z) with
      | F_fin q => Ok (F_fin q)
      | _ => Raise OverflowError
      end
  | Float f => Ok f
  end.

Definition arith (on_int : Z -> Z -> Z) (on_float : pyfloat -> pyfloat -> pyfloat)
           (x y : num) : result num :=
  match x, y with
  | Int a, Int b => Ok (Int (on_int a b))
  | _, _ =>
      (a <- to_float x ;;
       b <- to_float y ;;
       Ok (Float (on_float a b)))%py
  end.

Definition add : num -> num -> result num := arith Z.add fadd.
Definition sub : num -> num -> result num := arith Z.sub fsub.
Definition mul : num -> num -> result num := arith Z.mul fmul.

(** [x // d] and [x % d] with a positive int literal on the right. *)
Definition floordiv (x : num) (d : Z) : num :=
  match x with
  | Int a => Int (a / d)
  | Float f => Float (float_floordiv f d)
  end.

Definition modulo (x : num) (d : Z) : num :=
  match x with
  | Int a => Int (a mod d)
  | Float f => Float (float_mod f d)
  end.

(** [x >= d] with an int literal on the right; false for a
    not-a-number. *)
Definition geb (x : num) (d : Z) : bool :=
  match x with
  | Int a => d <=? a
  | Float (F_fin q) => Qle_bool (inject_Z d) q
  | Float (F_inf negative) => negb negative
  | Float F_nan => false
  end.

(** ** The data model *)

Record Timestamp : Type := mkTimestamp {
  ts_h : num;
  ts_m : num;
  ts_s : num
}.

Inductive EndValue : Type :=
| E_None
| E_Time (t : Timestamp)
| E_Int (z : Z).

Record Section : Type := mkSection {
  name : string;
  start : Timestamp;
  end_ : EndValue
}.

Definition Cfg : Type := list Section.

(** [t[0] * 3600 + t[1] * 60 + t[2]] *)
Definition seconds_of (t : Timestamp) : result num :=
  (hours <- mul (ts_h t) (Int 3600) ;;
   minutes <- mul (ts_m t) (Int 60) ;;
   both <- add hours minutes ;;
   add both (ts_s t))%py.

(** [Section.start_seconds] *)
Definition start_seconds (self : Section) : result num :=
  seconds_of (start self).

(** [Section.duration] *)
Definition duration (self : Section) : result (option num) :=
  match end_ self with
  | E_None => Ok None
  | E_Time e =>
      (end_seconds <- seconds_of e ;;
       begin <- start_seconds self ;;
       d <- sub end_seconds begin ;;
       Ok (Some d))%py
  | E_Int _ => Raise (TypeError "'int' object is not subscriptable")
  end.

(** ** [parse_time] *)

(** [float(s)] for a [str]: the decimal value read, rounded. *)
Definition float_of_string (s : string) : option pyfloat :=
  match FloatStr.float_of_string s with
  | Some (F_fin q) => Some (round64 q)
  | other => other
  end.

(** [float(t)] *)
Definition float_ (t : YamlValue) : result pyfloat :=
  match t with
  | YStr s =>
      match float_of_string s with
      | Some x => Ok x
      | None => Raise (ValueError "could not convert string to float")
      end
  | YInt z => to_float (Int z)
  | YFloat x => Ok x
  | YBool b => Ok (F_fin (if b then 1 else 0))
  | YNone | YList _ | YDict _ =>
      Raise (TypeError "float() argument must be a string or a real number")
  end.

(** Lines 54-57, the branch [isinstance(t, float)]. *)
Definition minutes_shape (t : pyfloat) : result Timestamp :=
  (h <- int_of_float (float_floordiv t 60) ;;
   m <- int_of_float (float_mod t 60) ;;
   s <- mul (Float (float_mod t 1)) (Int 60) ;;
   Ok (mkTimestamp (Int h) (Int m) s))%py.

(** [sys.int_max_str_digits] *)
Definition int_max_str_digits : nat := 4300.

Definition digit_limit : PyError :=
  ValueError "Exceeds the limit (4300 digits) for integer string conversion".

(** [int(text)] for the text of a [\d+] group. *)
Definition int_of_digits (ds : list ascii) : result Z :=
  if (int_max_str_digits <? length ds)%nat then Raise digit_limit
  else
    match ds with
    | [] => Raise (ValueError "invalid literal for int()")
    | _ =>
        if forallb is_digit ds then Ok (digits_val ds)
        else Raise (ValueError "invalid literal for int()")
    end.

(** [float(text)] for the text of a [\d+] group. *)
Definition float_of_digits (ds : list ascii) : result num :=
  match float_of_string (string_of_list_ascii ds) with
  | Some x => Ok (Float x)
  | None => Raise (ValueError "could not convert string to float")
  end.

(** [int(groups[k]) if groups[k] is not None else 0] *)
Definition int_or_zero (g : groups) (k : string) : result num :=
  match get k g with
  | Some ds => (z <- int_of_digits ds ;; Ok (Int z))%py
  | None => Ok (Int 0)
  end.

(** Lines 59-73: the three components before any carry. *)
Definition raw_components (t : string) : result (num * num * num) :=
  let text := list_ascii_of_string t in
  match re_match colon_re text with
  | Some g =>
      (h <- int_or_zero g "hours" ;;
       m <- match get "minutes" g with
            | Some ds => (z <- int_of_digits ds ;; Ok (Int z))
            | None => Raise (TypeError "int() argument must not be None")
            end ;;
       s <- match get "seconds" g with
            | Some ds => float_of_digits ds
            | None => Raise (TypeError "float() argument must not be None")
            end ;;
       Ok (h, m, s))%py
  | None =>
      match re_match letter_re text with
      | None => Raise (AssertionError ("Invalid time format: " ++ t))
      | Some g =>
          (h <- int_or_zero g "hours" ;;
           m <- int_or_zero g "minutes" ;;
           s <- match get "seconds" g with
                | Some ds => float_of_digits ds
                | None => Ok (Int 0)
                end ;;
           Ok (h, m, s))%py
      end
  end.

(** Lines 75-81: seconds carry into minutes, then minutes into hours. *)
Definition normalize (hms : num * num * num) : result Timestamp :=
  let '(h, m, s) := hms in
  (ms <- (if geb s 60
          then (m' <- add m (floordiv s 60) ;; Ok (m', modulo s 60))
          else Ok (m, s)) ;;
   let '(m, s) := ms in
   hm <- (if geb m 60
          then (h' <- add h (floordiv m 60) ;; Ok (h', modulo m 60))
          else Ok (h, m)) ;;
   let '(h, m) := hm in
   Ok (mkTimestamp h m s))%py.

Definition parse_time (t : YamlValue) : result Timestamp :=
  match float_ t with
  | Ok x => minutes_shape x
  | Raise (ValueError _) =>
      (* except ValueError: pass -- [t] is still the argument *)
      match t with
      | YFloat x => minutes_shape x
      | YStr text => (hms <- raw_components text ;; normalize hms)%py
      | _ => Raise (TypeError "expected string or bytes-like object")
      end
  | Raise e => Raise e
  end.

(** ** [extract_section] and [split_file] *)

Inductive Arg : Type :=
| Word (w : string)
| StrNum (x : num)
| StrNone
| OutFile (out_dir : Path) (file_name : string).

(** [str(x)] of a number: an int of more than 4300 digits is refused. *)
Definition str_num (x : num) : result Arg :=
  match x with
  | Int z =>
      if Z.abs z <? 10 ^ Z.of_nat int_max_str_digits then Ok (StrNum x)
      else Raise digit_limit
  | Float _ => Ok (StrNum x)
  end.

Definition str_opt (d : option num) : result Arg :=
  match d with
  | Some x => str_num x
  | None => Ok StrNone
  end.

(** Lines 86-91. *)
Definition duration_flag (section : Section) : result (list Arg) :=
  match end_ section with
  | E_None => Ok []
  | _ =>
      (d <- duration section ;;
       text <- str_opt d ;;
       Ok [Word "-t"; text])%py
  end.

(** Lines 86-105: the vector, as far as it can be built. *)
Definition extract_args (input out_dir : Path) (section : Section)
  : result (list Arg) :=
  (flag <- duration_flag section ;;
   let filename := OutFile out_dir (name section ++ path_suffix input) in
   begin <- start_seconds section ;;
   seek <- str_num begin ;;
   Ok ([Word "ffmpeg"; Word "-i"; Word (path_text input);
        Word "-c"; Word "copy"; Word "-ss"; seek]
         ++ flag ++ [filename]))%py.

(** What the program asks of its surroundings, over a state [W] of
    theirs: [out_dir.mkdir(exist_ok=True, parents=True)] and
    [subprocess.check_call(args)].  Either may raise: an [OSError] of
    the file system, a [CalledProcessError] for a non-zero exit. *)
Record Effects (W : Type) : Type := mkEffects {
  mkdir : Path -> W -> result W;
  check_call : list Arg -> W -> result W
}.
Arguments mkdir {W} _ _ _.
Arguments check_call {W} _ _ _.

(** [extract_section]: make the directory, build the vector, run it.
    The line printed before the run is left out. *)
Definition extract_section {W : Type} (fx : Effects W)
           (input out_dir : Path) (section : Section) (w : W) : result W :=
  (w <- mkdir fx out_dir w ;;
   args <- extract_args input out_dir section ;;
   check_call fx args w)%py.

Fixpoint split_file {W : Type} (fx : Effects W) (file out_dir : Path)
         (cfg : Cfg) (w : W) : result W :=
  match cfg with
  | [] => Ok w
  | section :: rest =>
      (w <- extract_section fx file out_dir section w ;;
       split_file fx file out_dir rest w)%py
  end.

(** ** [load_config], from the parsed document on *)

Definition build_section (prev_start : Timestamp) (k : string) (v : YamlValue)
  : result Section :=
  let section_cfg := mkSection k prev_start (E_Int (-1)) in
  match v with
  | YDict d =>
      (section_cfg <-
         match lookup "start" d with
         | Some x =>
             (t <- parse_time x ;;
              Ok (mkSection (name section_cfg) t (end_ section_cfg)))
         | None => Ok section_cfg
         end ;;
       match lookup "end" d with
       | Some x =>
           (t <- parse_time x ;;
            Ok (mkSection (name section_cfg) (start section_cfg) (E_Time t)))
       | None => Ok section_cfg
       end)%py
  | _ =>
      if isinstance_float_int v then
        Raise (TypeError "'Section' object does not support item assignment")
      else Raise invalid_section_config
  end.

Fixpoint load_loop (prev_start : Timestamp) (items : list (string * YamlValue))
         (sections : list Section) : result (list Section) :=
  match items with
  | [] => Ok sections
  | (k, v) :: rest =>
      (section_cfg <- build_section prev_start k v ;;
       load_loop prev_start rest (sections ++ [section_cfg]))%py
  end.

Definition zero_tuple : Timestamp := mkTimestamp (Int 0) (Int 0) (Int 0).

Definition load_config (cfg : YamlValue) : result Cfg :=
  match cfg with
  | YDict items => load_loop zero_tuple items []
  | _ => Raise (AttributeError "object has no attribute 'items'")
  end.

End B64.

(** ** Whole numbers, for the statements *)

(** The float equal to the int [z]. *)
Definition whole_float (z : Z) : pyfloat := F_fin (inject_Z z).

(** [x] is the whole number [z], as an [int] or as a [float]: Python's
    [x == z]. *)
Definition whole (x : B64.num) (z : Z) : Prop :=
  x = B64.Int z \/ x = B64.Float (whole_float z).

(** The three components of [ts] are the whole numbers [h], [m], [s]. *)
Definition reads (ts : B64.Timestamp) (h m s : Z) : Prop :=
  whole (B64.ts_h ts) h /\ whole (B64.ts_m ts) m /\ whole (B64.ts_s ts) s.

(** What the minutes branch returns for the whole number [z]. *)
Definition whole_minutes (z : Z) : B64.Timestamp :=
  B64.mkTimestamp (B64.Int (z / 60)) (B64.Int (z mod 60))
                  (B64.Float (whole_float 0)).

(** [ts] is the carry of the whole numbers [h], [m], [s]: seconds into
    minutes, then minutes into hours. *)
Definition reads_carried (ts : B64.Timestamp) (h m s : Z) : Prop :=
  reads ts (h + (m + s / 60) / 60) ((m + s / 60) mod 60) (s mod 60).

(** A run of digits that [int()] accepts and that a float holds
    exactly: at most fifteen digits. *)
Definition short_digits (ds : list ascii) : Prop :=
  digit_text ds /\ (length ds <= 15)%nat.

Definition opt_short_digits (d : option (list ascii)) : Prop :=
  match d with
  | Some ds => short_digits ds
  | None => True
  end.

(** ** Texts with a long run of digits *)

Definition zeros (n : nat) : list ascii := repeat "0"%char n.


Definition long_hours : string :=
  string_of_list_ascii ("1"%char :: zeros 400 ++ list_ascii_of_string "h5s").


(** A section that starts and ends at [long_hours]. *)
Definition long_document : YamlValue :=
  YDict [("A"%string, YDict [("start"%string, YStr long_hours);
                             ("end"%string, YStr long_hours)])].


(** What [parse_time] returns for [long_hours]. *)
Definition long_stamp : B64.Timestamp :=
  B64.mkTimestamp (B64.Int (10 ^ 400)) (B64.Int 0) (B64.Float (F_fin 5)).

(** Surroundings in which nothing fails, with the runs of [ffmpeg] so
    far as their state: the directory is made and every run exits with
    zero. *)
Definition recording : B64.Effects (list (list B64.Arg)) :=
  B64.mkEffects (list (list B64.Arg))
    (fun _ runs => Ok runs)
    (fun args runs => Ok (runs ++ [args])).

(** The vector for a section that starts [begin] seconds in and lasts
    [d] seconds. *)
Definition timed_run (file out_dir : Path) (section_name : string)
           (begin d : B64.num) : list B64.Arg :=
  [B64.Word "ffmpeg"; B64.Word "-i"; B64.Word (path_text file);
   B64.Word "-c"; B64.Word "copy";
   B64.Word "-ss"; B64.StrNum begin; B64.Word "-t"; B64.StrNum d;
   B64.OutFile out_dir (section_name ++ path_suffix file)].


(** A count of minutes too large for a float, with seconds to carry. *)
Definition heavy_carry : string :=
  string_of_list_ascii ("1"%char :: zeros 400 ++ list_ascii_of_string "m61s").

(** The colon shape with 4301 digits of hours. *)
Definition long_hours_colon : string :=
  string_of_list_ascii (zeros 4301 ++ list_ascii_of_string ":00:00").

(** * Properties *)

(** ** Arithmetic of Python numbers *)

Section NumFacts.
Local Open Scope Q_scope.

Lemma val_add (x y : PyNum) : Num.val (Num.add x y) == Num.val x + Num.val y.
Proof.
  destruct x, y; cbn [Num.add Num.val]; try apply Qred_correct.
  rewrite inject_Z_plus. reflexivity.
Qed.

(** Floor division by sixty brackets the dividend. *)
Lemma floor60_bounds (q : Q) :
  inject_Z (Qfloor (q / 60)) * 60 <= q
  /\ q < (inject_Z (Qfloor (q / 60)) + 1) * 60.
Proof.
  pose proof (Qfloor_le (q / 60)) as Hlo.
  pose proof (Qlt_floor (q / 60)) as Hhi.
  rewrite inject_Z_plus in Hhi.
  assert (Hq : q == q / 60 * 60) by field.
  split.
  - rewrite Hq at 2. apply Qmult_le_compat_r; [exact Hlo | discriminate].
  - rewrite Hq at 1. apply Qmult_lt_compat_r; [reflexivity | exact Hhi].
Qed.

Lemma val_floordiv60 (x : PyNum) :
  Num.val (Num.floordiv x 60) == inject_Z (Qfloor (Num.val x / 60)).
Proof.
  destruct x; cbn [Num.floordiv Num.val].
  - rewrite Zdiv_Qdiv. reflexivity.
  - reflexivity.
Qed.

Lemma val_modulo60 (x : PyNum) :
  Num.val (Num.modulo x 60)
  == Num.val x - 60 * inject_Z (Qfloor (Num.val x / 60)).
Proof.
  destruct x; cbn [Num.modulo Num.val].
  - rewrite (Z.mod_eq z 60) by discriminate.
    rewrite Zdiv_Qdiv. unfold Z.sub.
    rewrite inject_Z_plus, inject_Z_opp, inject_Z_mult. reflexivity.
  - unfold Num.qmod. apply Qred_correct.
Qed.

Lemma geb_true (x : PyNum) (d : Z) :
  Num.geb x d = true <-> inject_Z d <= Num.val x.
Proof.
  unfold Num.geb.
  destruct (Num.val x ?= inject_Z d) eqn:E.
  - apply Qeq_alt in E. split; [intros _ | reflexivity].
    rewrite E. apply Qle_refl.
  - apply Qlt_alt in E. split; [discriminate |].
    intros H. exfalso. exact (Qlt_not_le _ _ E H).
  - apply Qgt_alt in E. split; [intros _ | reflexivity].
    apply Qlt_le_weak. exact E.
Qed.

Lemma geb_false (x : PyNum) (d : Z) :
  Num.geb x d = false <-> Num.val x < inject_Z d.
Proof.
  unfold Num.geb.
  destruct (Num.val x ?= inject_Z d) eqn:E.
  - apply Qeq_alt in E. split; [discriminate |].
    intros H. rewrite E in H. exfalso. exact (Qlt_irrefl _ H).
  - apply Qlt_alt in E. split; [intros _; exact E | reflexivity].
  - apply Qgt_alt in E. split; [discriminate |].
    intros H. exfalso. exact (Qlt_irrefl _ (Qlt_trans _ _ _ H E)).
Qed.

End NumFacts.

(** ** The carry of [parse_time] *)

Section Carry.
Local Open Scope Q_scope.

Lemma floor60_nonneg (q : Q) : 0 <= q -> 0 <= inject_Z (Qfloor (q / 60)).
Proof.
  intros Hq.
  assert (H0 : 0 <= q / 60).
  { apply Qle_shift_div_l; [reflexivity | lra]. }
  apply Qfloor_resp_le in H0. change (Qfloor 0) with 0%Z in H0.
  change 0 with (inject_Z 0). rewrite <- Zle_Qle. exact H0.
Qed.

(** One carry step, on values: [lo] loses its multiples of sixty and
    [hi] gains them. *)
Lemma carry_step (hi lo : PyNum) :
  0 <= Num.val lo ->
  let '(hi', lo') :=
    if Num.geb lo 60
    then (Num.add hi (Num.floordiv lo 60), Num.modulo lo 60)
    else (hi, lo) in
  0 <= Num.val lo' < 60
  /\ Num.val hi <= Num.val hi'
  /\ Num.val hi' * 60 + Num.val lo' == Num.val hi * 60 + Num.val lo.
Proof.
  intros Hlo.
  destruct (Num.geb lo 60) eqn:E.
  - rewrite val_add, val_modulo60, val_floordiv60.
    pose proof (floor60_bounds (Num.val lo)) as [B1 B2].
    pose proof (floor60_nonneg _ Hlo) as B3.
    repeat split; lra.
  - apply geb_false in E. change (inject_Z 60) with 60 in E.
    repeat split; lra.
Qed.

(** Lines 75-81 on any triple whose minutes and seconds are not
    negative: both end up in [0, 60) and the instant is the same. *)
Lemma normalize_spec (h m s : PyNum) :
  0 <= Num.val m -> 0 <= Num.val s ->
  let t := normalize (h, m, s) in
  0 <= Num.val (ts_m t) < 60
  /\ 0 <= Num.val (ts_s t) < 60
  /\ Num.val (ts_h t) * 3600 + Num.val (ts_m t) * 60 + Num.val (ts_s t)
     == Num.val h * 3600 + Num.val m * 60 + Num.val s.
Proof.
  intros Hm Hs. unfold normalize.
  pose proof (carry_step m s Hs) as C1.
  destruct (if Num.geb s 60
            then (Num.add m (Num.floordiv s 60), Num.modulo s 60)
            else (m, s)) as [m1 s1].
  destruct C1 as (Bs & Hm1 & T1).
  assert (Hm1' : 0 <= Num.val m1) by lra.
  pose proof (carry_step h m1 Hm1') as C2.
  destruct (if Num.geb m1 60
            then (Num.add h (Num.floordiv m1 60), Num.modulo m1 60)
            else (h, m1)) as [h2 m2].
  destruct C2 as (Bm & _ & T2).
  cbn [ts_h ts_m ts_s].
  repeat split; lra.
Qed.

End Carry.

(** ** The matcher *)

Section MatcherFacts.
Context {A : Type}.
Implicit Types (k : list ascii -> option A) (s : list ascii).

Lemma star_inv p s k x :
  star p s k = Some x ->
  exists pre s', s = pre ++ s' /\ forallb p pre = true /\ k s' = Some x.
Proof.
  induction s as [| c s IH]; simpl; intros H.
  - exists [], []. auto.
  - destruct (p c) eqn:Hc.
    + destruct (star p s k) as [y |] eqn:Hs.
      * destruct (IH H) as (pre & s' & -> & Hp & Hk).
        exists (c :: pre), s'. simpl. rewrite Hc, Hp. auto.
      * exists [], (c :: s). auto.
    + exists [], (c :: s). auto.
Qed.

Lemma plus_inv p s k x :
  plus p s k = Some x ->
  exists pre s',
    s = pre ++ s' /\ pre <> [] /\ forallb p pre = true /\ k s' = Some x.
Proof.
  destruct s as [| c s]; simpl; [discriminate |].
  destruct (p c) eqn:Hc; [| discriminate].
  intros H. destruct (star_inv _ _ _ _ H) as (pre & s' & -> & Hp & Hk).
  exists (c :: pre), s'. simpl. rewrite Hc, Hp.
  repeat split; auto. discriminate.
Qed.

Lemma consumed_prefix (pre s' : list ascii) :
  firstn (length (pre ++ s') - length s') (pre ++ s') = pre.
Proof.
  rewrite length_app, Nat.add_sub.
  rewrite firstn_app, Nat.sub_diag, firstn_all. simpl.
  apply app_nil_r.
Qed.

(** A [\d+] group hands its continuation the digits it read. *)
Lemma run_group_digits name s g (k : list ascii -> groups -> option A) x :
  run (Group name digits) s g k = Some x ->
  exists pre s',
    s = pre ++ s' /\ digit_text pre /\ k s' (set name pre g) = Some x.
Proof.
  cbn [run digits]. intros H.
  apply plus_inv in H as (pre & s' & -> & Hne & Hp & Hk).
  rewrite consumed_prefix in Hk.
  exists pre, s'. repeat split; assumption.
Qed.

Lemma run_cls p s g (k : list ascii -> groups -> option A) x :
  run (Cls p) s g k = Some x ->
  exists c s', s = c :: s' /\ p c = true /\ k s' g = Some x.
Proof.
  cbn [run]. destruct s as [| c s']; [discriminate |].
  destruct (p c) eqn:Hc; [| discriminate].
  intros H. exists c, s'. auto.
Qed.

Lemma digit_groups_set name pre g :
  digit_text pre -> digit_groups g -> digit_groups (set name pre g).
Proof.
  intros Hp Hg n ds [E | Hin].
  - injection E as _ <-. exact Hp.
  - exact (Hg n ds Hin).
Qed.

(** Whatever a pattern with [\d+] groups matches, its continuation is
    entered with groups that hold digits only. *)
Lemma run_inv r :
  captures_digits r ->
  forall s g (k : list ascii -> groups -> option A) x,
    digit_groups g ->
    run r s g k = Some x ->
    exists s' g', digit_groups g' /\ k s' g' = Some x.
Proof.
  induction r as [p | r1 IH1 r2 IH2 | r1 IH1 | p | p | name r1 _];
    intros Hc s g k x Hg H.
  - apply run_cls in H as (c & s' & _ & _ & Hk). eauto.
  - destruct Hc as [Hc1 Hc2]. cbn [run] in H.
    destruct (IH1 Hc1 _ _ _ _ Hg H) as (s1 & g1 & Hg1 & H1).
    exact (IH2 Hc2 _ _ _ _ Hg1 H1).
  - cbn [run] in H. cbn [captures_digits] in Hc.
    destruct (run r1 s g k) as [y |] eqn:E.
    + injection H as <-. exact (IH1 Hc _ _ _ _ Hg E).
    + eauto.
  - cbn [run] in H. apply plus_inv in H as (pre & s' & _ & _ & _ & Hk). eauto.
  - cbn [run] in H. apply star_inv in H as (pre & s' & _ & _ & Hk). eauto.
  - cbn [captures_digits] in Hc. subst r1.
    apply run_group_digits in H as (pre & s' & _ & Hp & Hk).
    exists s', (set name pre g). split; [| exact Hk].
    apply digit_groups_set; assumption.
Qed.

End MatcherFacts.

Lemma get_In name g ds : get name g = Some ds -> In (name, ds) g.
Proof.
  induction g as [| [n v] g IH]; simpl; [discriminate |].
  destruct (String.eqb_spec n name) as [-> | _].
  - intros [= ->]. now left.
  - intros H. right. auto.
Qed.

Lemma re_match_digit_groups r s g :
  captures_digits r -> re_match r s = Some g -> digit_groups g.
Proof.
  intros Hc H. unfold re_match in H.
  destruct (run_inv r Hc s [] _ g (fun _ _ (F : In _ []) => match F with end) H)
    as (s' & g' & Hg' & [= ->]).
  exact Hg'.
Qed.

Lemma colon_re_captures : captures_digits colon_re.
Proof. cbn. auto. Qed.

Lemma letter_re_captures : captures_digits letter_re.
Proof. cbn. auto 10. Qed.

(** [letter_re] is three optional parts: it matches every text. *)
Lemma letter_re_matches (s : list ascii) : re_match letter_re s <> None.
Proof.
  unfold re_match, letter_re, letter_part. cbn [run].
  repeat match goal with
         | |- match ?m with Some _ => _ | None => _ end <> None =>
             destruct m; [discriminate |]
         end.
  discriminate.
Qed.

Lemma run_seq {A : Type} r1 r2 s g (k : list ascii -> groups -> option A) :
  run (Seq r1 r2) s g k = run r1 s g (fun s' g' => run r2 s' g' k).
Proof. reflexivity. Qed.

(** What a match of [colon_re] leaves in the groups: minutes and seconds
    always, hours when the text had them. *)
Lemma colon_re_groups s g :
  re_match colon_re s = Some g ->
  exists dm dsec g0,
    g = set "seconds" dsec (set "minutes" dm g0)
    /\ digit_text dm /\ digit_text dsec /\ digit_groups g0.
Proof.
  unfold re_match, colon_re. rewrite run_seq. intros H.
  apply (run_inv (Opt (Group "hours" digits)) eq_refl) in H
    as (s1 & g0 & Hg0 & H); [| intros ? ? []].
  rewrite run_seq in H. apply run_cls in H as (_ & s2 & _ & _ & H).
  rewrite run_seq in H.
  apply run_group_digits in H as (dm & s3 & _ & Hdm & H).
  rewrite run_seq in H. apply run_cls in H as (_ & s4 & _ & _ & H).
  apply run_group_digits in H as (dsec & s5 & _ & Hdsec & [= <-]).
  exists dm, dsec, g0. auto.
Qed.

(** ** [int()] and [float()] on the text of a [\d+] group *)

Ltac split_tests :=
  repeat match goal with
         | |- context [(?a <=? ?b)%N] => destruct (N.leb_spec a b)
         | |- context [(?a =? ?b)%N] => destruct (N.eqb_spec a b)
         end.

Lemma is_digit_range c : is_digit c = true -> (48 <= code c <= 57)%N.
Proof.
  unfold is_digit. intros H. apply andb_prop in H as [H1 H2].
  apply N.leb_le in H1, H2. lia.
Qed.

Lemma digit_not_float_space c : is_digit c = true -> is_float_space c = false.
Proof.
  intros H. apply is_digit_range in H. unfold is_float_space.
  split_tests; simpl; try reflexivity; lia.
Qed.

(** A digit is none of the other characters the parsers test for. *)
Lemma digit_not_char a c :
  is_digit a = false -> is_digit c = true -> is_char a c = false.
Proof.
  intros Ha Hc. unfold is_char.
  destruct (Ascii.eqb_spec a c) as [-> |]; [congruence | reflexivity].
Qed.

Lemma lower_digit c : is_digit c = true -> FloatStr.lower c = c.
Proof.
  intros H. apply is_digit_range in H. unfold FloatStr.lower.
  split_tests; simpl; try reflexivity; lia.
Qed.

Lemma digit_val_range c : is_digit c = true -> 0 <= digit_val c <= 9.
Proof. intros H. apply is_digit_range in H. unfold digit_val. lia. Qed.

Lemma digits_val_nonneg ds : forallb is_digit ds = true -> 0 <= digits_val ds.
Proof.
  unfold digits_val.
  assert (G : forall acc, 0 <= acc -> forallb is_digit ds = true ->
                          0 <= fold_left (fun a c => 10 * a + digit_val c) ds acc).
  { induction ds as [| c ds IH]; cbn [fold_left forallb]; intros acc Hacc H;
      [exact Hacc |].
    apply andb_prop in H as [Hc Hds]. apply digit_val_range in Hc.
    apply IH; [lia | exact Hds]. }
  apply G. lia.
Qed.

Lemma int_of_digits_ok ds :
  digit_text ds -> int_of_digits ds = Ok (digits_val ds) /\ 0 <= digits_val ds.
Proof.
  intros [Hne Hd]. split; [| apply digits_val_nonneg; exact Hd].
  unfold int_of_digits. destruct ds; [contradiction |]. now rewrite Hd.
Qed.

Lemma lstrip_digit c s : is_digit c = true -> FloatStr.lstrip (c :: s) = c :: s.
Proof. intros H. simpl. now rewrite (digit_not_float_space _ H). Qed.

Lemma forallb_rev {T} (p : T -> bool) l : forallb p (rev l) = forallb p l.
Proof.
  induction l as [| a l IH]; simpl; [reflexivity |].
  rewrite forallb_app, IH. simpl. rewrite andb_true_r. apply andb_comm.
Qed.

Lemma strip_digits ds : digit_text ds -> FloatStr.strip ds = ds.
Proof.
  intros [Hne Hd]. unfold FloatStr.strip.
  destruct ds as [| c s]; [contradiction |].
  rewrite lstrip_digit by (simpl in Hd; now apply andb_prop in Hd).
  assert (Hr : forallb is_digit (rev (c :: s)) = true)
    by (rewrite forallb_rev; exact Hd).
  destruct (rev (c :: s)) as [| c' s'] eqn:E.
  - apply (f_equal (@length _)) in E. rewrite length_rev in E. discriminate.
  - rewrite lstrip_digit by (simpl in Hr; now apply andb_prop in Hr).
    rewrite <- E. apply rev_involutive.
Qed.

Lemma digitpart_rest_digits ds :
  forallb is_digit ds = true -> FloatStr.digitpart_rest ds = (ds, []).
Proof.
  induction ds as [| c ds IH]; simpl; [reflexivity |].
  intros H. apply andb_prop in H as [Hc Hds]. now rewrite Hc, (IH Hds).
Qed.

Lemma not_word_digit w c s :
  is_digit c = true ->
  (match w with String a _ => is_digit a | EmptyString => true end) = false ->
  FloatStr.same_word w (c :: s) = false.
Proof.
  intros Hc Hw. unfold FloatStr.same_word.
  destruct w as [| a w]; [discriminate |].
  cbn [map string_of_list_ascii String.eqb]. rewrite (lower_digit _ Hc).
  change (Ascii.eqb a c) with (is_char a c).
  now rewrite (digit_not_char _ _ Hw Hc).
Qed.

(** [float()] reads a run of digits as the integer it spells. *)
Lemma float_of_digits_ok ds :
  digit_text ds -> float_of_digits ds = Ok (PFloat (inject_Z (digits_val ds))).
Proof.
  intros Hds. pose proof Hds as [Hne Hd].
  unfold float_of_digits, float_of_string, FloatStr.float_of_string.
  rewrite list_ascii_of_string_of_list_ascii, (strip_digits _ Hds).
  destruct ds as [| c s]; [contradiction |].
  assert (Hc : is_digit c = true) by (simpl in Hd; now apply andb_prop in Hd).
  assert (Hs : forallb is_digit s = true) by (simpl in Hd; now apply andb_prop in Hd).
  unfold FloatStr.sign.
  rewrite (digit_not_char "-" c eq_refl Hc), (digit_not_char "+" c eq_refl Hc).
  rewrite !(not_word_digit _ c s Hc) by reflexivity.
  cbn [orb].
  unfold FloatStr.number, FloatStr.digitpart.
  rewrite Hc, (digitpart_rest_digits _ Hs).
  cbn [FloatStr.exponent]. rewrite app_nil_r. reflexivity.
Qed.

(** ** [raw_components] never raises *)

Lemma int_or_zero_ok g k :
  digit_groups g ->
  exists z, int_or_zero g k = Ok (PInt z) /\ 0 <= z.
Proof.
  intros Hg. unfold int_or_zero.
  destruct (get k g) as [ds |] eqn:E.
  - apply get_In, Hg, int_of_digits_ok in E as [-> Hz]. simpl. eauto.
  - exists 0. split; [reflexivity | lia].
Qed.

Lemma nonneg_inject (z : Z) : 0 <= z -> (0 <= inject_Z z)%Q.
Proof. intros H. change 0%Q with (inject_Z 0). now rewrite <- Zle_Qle. Qed.

(** Every text has raw components: two ints and a number, none of them
    negative. *)
Lemma raw_components_total (t : string) :
  exists h m s,
    raw_components t = Ok (PInt h, PInt m, s)
    /\ 0 <= h /\ 0 <= m /\ (0 <= Num.val s)%Q.
Proof.
  unfold raw_components.
  destruct (re_match colon_re (list_ascii_of_string t)) as [g |] eqn:Ec.
  - apply colon_re_groups in Ec as (dm & dsec & g0 & -> & Hdm & Hdsec & Hg0).
    assert (Hg : digit_groups (set "seconds" dsec (set "minutes" dm g0)))
      by (repeat apply digit_groups_set; assumption).
    destruct (int_or_zero_ok _ "hours" Hg) as (h & -> & Hh).
    cbn [get set String.eqb Ascii.eqb Bool.eqb bind].
    destruct (int_of_digits_ok _ Hdm) as [-> Hm].
    rewrite (float_of_digits_ok _ Hdsec).
    exists h, (digits_val dm), (PFloat (inject_Z (digits_val dsec))).
    cbn [bind Num.val]. repeat split; try assumption.
    apply nonneg_inject, digits_val_nonneg, Hdsec.
  - destruct (re_match letter_re (list_ascii_of_string t)) as [g |] eqn:El;
      [| exfalso; exact (letter_re_matches _ El)].
    apply (re_match_digit_groups _ _ _ letter_re_captures) in El.
    destruct (int_or_zero_ok _ "hours" El) as (h & -> & Hh).
    destruct (int_or_zero_ok _ "minutes" El) as (m & -> & Hm).
    cbn [bind].
    destruct (get "seconds" g) as [ds |] eqn:Es.
    + apply get_In, El in Es.
      rewrite (float_of_digits_ok _ Es).
      exists h, m, (PFloat (inject_Z (digits_val ds))).
      cbn [bind Num.val]. repeat split; try assumption.
      apply nonneg_inject, digits_val_nonneg, Es.
    + exists h, m, (PInt 0). cbn [bind Num.val]. repeat split; try assumption.
      apply Qle_refl.
Qed.

(** ** The minutes shape *)

Section MinutesShape.
Local Open Scope Q_scope.

Lemma int_of_float_integer (z : Z) : int_of_float (F_fin (inject_Z z)) = Ok z.
Proof.
  unfold int_of_float. rewrite Qfloor_Z, Qceiling_Z. now destruct Qle_bool.
Qed.

Lemma qmod60_nonneg (q : Q) : Qle_bool 0 (Num.qmod q 60) = true.
Proof.
  apply Qle_bool_iff. unfold Num.qmod. rewrite Qred_correct.
  pose proof (floor60_bounds q) as [B _]. lra.
Qed.

(** The branch taken for a float, spelled out on a finite one: whole
    hours, whole minutes of the rest, and the fraction of a minute in
    seconds. *)
Lemma minutes_shape_finite (q : Q) :
  exists s,
    minutes_shape (F_fin q)
    = Ok (mkTimestamp
            (PInt (Qfloor (q / 60)))
            (PInt (Qfloor (q - 60 * inject_Z (Qfloor (q / 60)))))
            (PFloat s))
    /\ s == (q - inject_Z (Qfloor q)) * 60.
Proof.
  exists (Qred (Num.qmod q (inject_Z 1) * inject_Z 60)).
  unfold minutes_shape, float_floordiv, float_mod, float_mul, Num.qfloordiv.
  rewrite int_of_float_integer. cbn [bind int_of_float].
  change (inject_Z 60) with 60. rewrite qmod60_nonneg. split.
  - do 3 f_equal. unfold Num.qmod. apply Qfloor_comp, Qred_correct.
  - rewrite Qred_correct. unfold Num.qmod. rewrite Qred_correct.
    change (inject_Z 1) with 1.
    assert (E : Qfloor (q / 1) = Qfloor q) by (apply Qfloor_comp; field).
    rewrite E. ring.
Qed.

End MinutesShape.

Lemma parse_time_of_float (t : YamlValue) (x : pyfloat) :
  float_ t = Ok x -> parse_time t = minutes_shape x.
Proof. intros H. unfold parse_time. now rewrite H. Qed.

Lemma parse_time_of_text (t : string) :
  float_of_string t = None ->
  parse_time (YStr t) = bind (raw_components t) (fun hms => Ok (normalize hms)).
Proof. intros H. unfold parse_time, float_. now rewrite H. Qed.

(** A text that [float()] rejects always gets a timestamp, with minutes
    and seconds in [0, 60) and the instant of its raw components. *)
Lemma parse_time_text_normalized (t : string) :
  float_of_string t = None ->
  exists h m s t',
    raw_components t = Ok (h, m, s)
    /\ parse_time (YStr t) = Ok t'
    /\ (0 <= Num.val (ts_m t') < 60)%Q
    /\ (0 <= Num.val (ts_s t') < 60)%Q
    /\ (Num.val (ts_h t') * 3600 + Num.val (ts_m t') * 60 + Num.val (ts_s t')
        == Num.val h * 3600 + Num.val m * 60 + Num.val s)%Q.
Proof.
  intros Hf.
  destruct (raw_components_total t) as (h & m & s & Hraw & _ & Hm & Hs).
  exists (PInt h), (PInt m), s, (normalize (PInt h, PInt m, s)).
  split; [exact Hraw |]. split.
  - rewrite (parse_time_of_text _ Hf), Hraw. reflexivity.
  - apply normalize_spec; [apply nonneg_inject; exact Hm | exact Hs].
Qed.

(** ** Errors of [parse_time] and of the loader *)

Lemma minutes_shape_not_invalid (x : pyfloat) :
  minutes_shape x <> Raise invalid_section_config.
Proof.
  destruct x as [q | b |].
  - destruct (minutes_shape_finite q) as (s & -> & _). discriminate.
  - discriminate.
  - discriminate.
Qed.

Lemma parse_time_not_invalid (v : YamlValue) :
  parse_time v <> Raise invalid_section_config.
Proof.
  unfold parse_time.
  destruct (float_ v) as [x | e] eqn:E.
  - apply minutes_shape_not_invalid.
  - destruct v; cbn in E; try discriminate.
    + injection E as <-. discriminate.
    + destruct (float_of_string s) eqn:Ef; [discriminate |].
      injection E as <-.
      destruct (raw_components_total s) as (h & m & s' & -> & _). discriminate.
    + injection E as <-. discriminate.
    + injection E as <-. discriminate.
Qed.

Lemma build_section_invalid prev k v :
  build_section prev k v = Raise invalid_section_config ->
  isinstance_float_int v = false /\ forall d, v <> YDict d.
Proof.
  destruct v; cbn [build_section isinstance_float_int];
    try discriminate; try (intros _; split; [reflexivity | discriminate]).
  intros H. exfalso.
  destruct (lookup "start" items) as [x |].
  - pose proof (parse_time_not_invalid x) as Nx.
    destruct (parse_time x) as [t |]; cbn [bind] in H; [| injection H as ->; exact (Nx eq_refl)].
    destruct (lookup "end" items) as [y |]; [| discriminate].
    pose proof (parse_time_not_invalid y) as Ny.
    destruct (parse_time y); cbn [bind] in H; [discriminate | injection H as ->; exact (Ny eq_refl)].
  - cbn [bind] in H.
    destruct (lookup "end" items) as [y |]; [| discriminate].
    pose proof (parse_time_not_invalid y) as Ny.
    destruct (parse_time y); cbn [bind] in H; [discriminate | injection H as ->; exact (Ny eq_refl)].
Qed.

Lemma load_loop_invalid prev items acc :
  load_loop prev items acc = Raise invalid_section_config ->
  exists k v, In (k, v) items /\ isinstance_float_int v = false
              /\ forall d, v <> YDict d.
Proof.
  revert acc. induction items as [| [k v] items IH]; intros acc; cbn [load_loop].
  - discriminate.
  - destruct (build_section prev k v) as [sec | e] eqn:E; cbn [bind]; intros H.
    + destruct (IH _ H) as (k' & v' & Hin & Hv). exists k', v'.
      split; [now right | exact Hv].
    + injection H as ->. exists k, v.
      split; [now left | exact (build_section_invalid _ _ _ E)].
Qed.

(** ** What the loop builds *)

Lemma build_section_defaults prev k d sec :
  build_section prev k (YDict d) = Ok sec ->
  name sec = k
  /\ (lookup "start" d = None -> start sec = prev)
  /\ (lookup "end" d = None -> end_ sec = E_Int (-1)).
Proof.
  cbn [build_section].
  destruct (lookup "start" d) as [x |], (lookup "end" d) as [y |];
    try destruct (parse_time x); try destruct (parse_time y);
    cbn [bind name start end_]; intros [= <-]; cbn [name start end_];
    repeat split; intros; reflexivity || discriminate.
Qed.

(** The sections come out one per item, in order, and each is built
    from the same [prev_start] the loop started with. *)
Lemma load_loop_sections prev items acc secs :
  load_loop prev items acc = Ok secs ->
  exists built,
    secs = acc ++ built
    /\ Forall2 (fun kv sec => build_section prev (fst kv) (snd kv) = Ok sec)
               items built.
Proof.
  revert acc. induction items as [| [k v] items IH]; intros acc; cbn [load_loop].
  - intros [= <-]. exists []. split; [now rewrite app_nil_r | constructor].
  - destruct (build_section prev k v) as [sec |] eqn:E; cbn [bind];
      [| discriminate].
    intros H. destruct (IH _ H) as (built & -> & HF).
    exists (sec :: built). split; [now rewrite <- app_assoc |].
    constructor; assumption.
Qed.

Lemma load_config_sections items secs :
  load_config (YDict items) = Ok secs ->
  Forall2 (fun kv sec => build_section zero_tuple (fst kv) (snd kv) = Ok sec)
          items secs.
Proof.
  intros H. apply load_loop_sections in H as (built & -> & HF). exact HF.
Qed.

(** * Properties of the numbers as CPython computes them *)

(** ** Whole numbers below [2^53] are kept exactly *)

Lemma Qred_inject_Z (z : Z) : Qred (inject_Z z) = inject_Z z.
Proof.
  unfold Qred, inject_Z.
  pose proof (Z.ggcd_correct_divisors z 1) as H.
  pose proof (Z.ggcd_gcd z 1) as Hg.
  destruct (Z.ggcd z 1) as [g [aa bb]]. cbn [fst snd] in *.
  rewrite Z.gcd_1_r in Hg. subst g. destruct H as [Ha Hb].
  assert (bb = 1) as -> by lia. assert (aa = z) as -> by lia.
  reflexivity.
Qed.

Lemma Qred_whole (q : Q) (z : Z) : q == inject_Z z -> Qred q = inject_Z z.
Proof.
  intros H. rewrite <- (Qred_inject_Z z). now apply Qred_complete.
Qed.

Lemma round_half_even_1 (n : Z) : B64.round_half_even n 1 = n.
Proof.
  unfold B64.round_half_even. rewrite Z.mod_1_r, Z.div_1_r. reflexivity.
Qed.

Lemma log2_ratio_1 (n : Z) : 0 < n -> B64.log2_ratio n 1 = Z.log2 n.
Proof.
  intros Hn. unfold B64.log2_ratio. cbn [Z.log2]. rewrite Z.sub_0_r.
  pose proof (Z.log2_nonneg n) as H0.
  destruct (Z.leb_spec 0 (Z.log2 n)) as [_ | ?]; [| lia].
  pose proof (Z.log2_spec n Hn) as [Hlo _].
  destruct (Z.ltb_spec n (1 * 2 ^ Z.log2 n)); [lia | reflexivity].
Qed.

Lemma nearest_whole (negative : bool) (n : Z) :
  0 < n < 2 ^ 53 ->
  B64.nearest negative n 1
  = F_fin (inject_Z (if negative then - n else n)).
Proof.
  intros [Hpos Hlt]. unfold B64.nearest.
  rewrite log2_ratio_1 by assumption.
  assert (Hlog : Z.log2 n < 53) by (apply Z.log2_lt_pow2; lia).
  pose proof (Z.log2_nonneg n) as Hlog0.
  set (step := Z.max (Z.log2 n - 52) (-1074)).
  assert (Hstep : -1074 <= step <= 0) by (unfold step; lia).
  destruct (Z.leb_spec step 0) as [_ | ?]; [| lia].
  rewrite round_half_even_1.
  assert (Hpow : 0 < 2 ^ (- step)) by (apply Z.pow_pos_nonneg; lia).
  assert (Hmag : Qred (n * 2 ^ (- step) # Z.to_pos (2 ^ (- step))) = inject_Z n).
  { apply Qred_whole. unfold Qeq, inject_Z. cbn [Qnum Qden].
    rewrite Z2Pos.id by assumption. ring. }
  rewrite Hmag.
  assert (Hbig : Qle_bool (inject_Z (2 ^ 1024)) (inject_Z n) = false).
  { apply not_true_iff_false. rewrite Qle_bool_iff, <- Zle_Qle.
    assert (2 ^ 53 < 2 ^ 1024) by (apply Z.pow_lt_mono_r; lia). lia. }
  rewrite Hbig. destruct negative; [| reflexivity].
  f_equal. apply Qred_whole. unfold Qeq, inject_Z. cbn [Qnum Qden Qopp]. ring.
Qed.

Lemma round64_whole (q : Q) (z : Z) :
  q == inject_Z z -> Z.abs z < 2 ^ 53 ->
  B64.round64 q = F_fin (inject_Z z).
Proof.
  intros Hq Hz. unfold B64.round64. rewrite (Qred_whole q z Hq).
  cbn [Qnum Qden inject_Z].
  destruct (Z.eqb_spec z 0) as [-> | Hne]; [reflexivity |].
  rewrite nearest_whole by lia.
  destruct (Z.ltb_spec z 0); do 2 f_equal; lia.
Qed.

Lemma to_float_whole (x : B64.num) (a : Z) :
  whole x a -> Z.abs a < 2 ^ 53 -> B64.to_float x = Ok (whole_float a).
Proof.
  intros [-> | ->] Ha; [| reflexivity].
  unfold B64.to_float. now rewrite (round64_whole (inject_Z a) a) by (reflexivity || assumption).
Qed.

Lemma fadd_whole (a b : Z) :
  Z.abs (a + b) < 2 ^ 53 ->
  B64.fadd (whole_float a) (whole_float b) = whole_float (a + b).
Proof.
  intros H. unfold whole_float, B64.fadd.
  apply round64_whole; [| assumption]. now rewrite inject_Z_plus.
Qed.

Lemma fneg_whole (a : Z) : B64.fneg (whole_float a) = whole_float (- a).
Proof.
  unfold whole_float, B64.fneg. f_equal. apply Qred_whole.
  now rewrite inject_Z_opp.
Qed.

Lemma fsub_whole (a b : Z) :
  Z.abs (a - b) < 2 ^ 53 ->
  B64.fsub (whole_float a) (whole_float b) = whole_float (a - b).
Proof.
  intros H. unfold B64.fsub. rewrite fneg_whole. now apply fadd_whole.
Qed.

Lemma fmul_whole (a b : Z) :
  Z.abs (a * b) < 2 ^ 53 ->
  B64.fmul (whole_float a) (whole_float b) = whole_float (a * b).
Proof.
  intros H. unfold whole_float, B64.fmul.
  apply round64_whole; [| assumption]. now rewrite inject_Z_mult.
Qed.

Lemma arith_whole (on_int : Z -> Z -> Z) (on_float : pyfloat -> pyfloat -> pyfloat)
      (x y : B64.num) (a b : Z) :
  whole x a -> whole y b ->
  Z.abs a < 2 ^ 53 -> Z.abs b < 2 ^ 53 ->
  on_float (whole_float a) (whole_float b) = whole_float (on_int a b) ->
  exists r, B64.arith on_int on_float x y = Ok r /\ whole r (on_int a b).
Proof.
  intros Hx Hy Ha Hb Hop.
  destruct Hx as [-> | ->], Hy as [-> | ->]; cbn [B64.arith].
  - eexists; split; [reflexivity | now left].
  - rewrite (to_float_whole (B64.Int a) a) by (now left || assumption).
    cbn. rewrite Hop. eexists; split; [reflexivity | now right].
  - rewrite (to_float_whole (B64.Int b) b) by (now left || assumption).
    cbn. rewrite Hop. eexists; split; [reflexivity | now right].
  - cbn. rewrite Hop. eexists; split; [reflexivity | now right].
Qed.

Lemma add_whole (x y : B64.num) (a b : Z) :
  whole x a -> whole y b ->
  Z.abs a < 2 ^ 53 -> Z.abs b < 2 ^ 53 -> Z.abs (a + b) < 2 ^ 53 ->
  exists r, B64.add x y = Ok r /\ whole r (a + b).
Proof.
  intros Hx Hy Ha Hb Hab. apply arith_whole; try assumption.
  now apply fadd_whole.
Qed.

Lemma sub_whole (x y : B64.num) (a b : Z) :
  whole x a -> whole y b ->
  Z.abs a < 2 ^ 53 -> Z.abs b < 2 ^ 53 -> Z.abs (a - b) < 2 ^ 53 ->
  exists r, B64.sub x y = Ok r /\ whole r (a - b).
Proof.
  intros Hx Hy Ha Hb Hab. apply arith_whole; try assumption.
  now apply fsub_whole.
Qed.

Lemma mul_whole (x y : B64.num) (a b : Z) :
  whole x a -> whole y b ->
  Z.abs a < 2 ^ 53 -> Z.abs b < 2 ^ 53 -> Z.abs (a * b) < 2 ^ 53 ->
  exists r, B64.mul x y = Ok r /\ whole r (a * b).
Proof.
  intros Hx Hy Ha Hb Hab. apply arith_whole; try assumption.
  now apply fmul_whole.
Qed.

(** ** [//] and [%] on whole floats *)

Lemma fmod_whole (a d : Z) :
  0 < d ->
  B64.fmod (inject_Z a) (inject_Z d)
  = inject_Z (if a <? 0 then - (Z.abs a mod d) else Z.abs a mod d).
Proof.
  intros Hd. unfold B64.fmod.
  assert (Hr : (Qabs (inject_Z a)
                - inject_Z d * inject_Z (Qfloor (Qabs (inject_Z a) / inject_Z d))
                == inject_Z (Z.abs a mod d))%Q).
  { change (Qabs (inject_Z a)) with (inject_Z (Z.abs a)).
    unfold Qminus.
    rewrite <- Zdiv_Qdiv, <- inject_Z_mult, <- inject_Z_opp, <- inject_Z_plus.
    apply inject_Z_injective. rewrite (Z.mod_eq (Z.abs a) d) by lia. ring. }
  change (Qnum (inject_Z a)) with a.
  destruct (a <? 0); apply Qred_whole.
  - rewrite Hr, inject_Z_opp. reflexivity.
  - exact Hr.
Qed.

Lemma Qeq_bool_whole_0 (z : Z) : Qeq_bool (inject_Z z) 0 = (z =? 0).
Proof.
  unfold Qeq_bool, inject_Z. cbn [Qnum Qden]. rewrite Z.mul_1_r.
  destruct z; reflexivity.
Qed.

Lemma float_mod_whole (a d : Z) :
  0 < d < 2 ^ 53 ->
  B64.float_mod (whole_float a) d = whole_float (a mod d).
Proof.
  intros Hd. unfold whole_float, B64.float_mod.
  rewrite fmod_whole by lia.
  pose proof (Z.mod_pos_bound (Z.abs a) d ltac:(lia)) as Hr.
  pose proof (Z.mod_pos_bound a d ltac:(lia)) as Hm.
  destruct (Z.ltb_spec a 0) as [Hneg | Hpos].
  - destruct (Z.eq_dec (Z.abs a mod d) 0) as [Hz | Hnz].
    + assert (Hval : a mod d = 0).
      { replace a with (- Z.abs a) by lia. apply Z.mod_opp_l_z; lia. }
      rewrite Hval, Hz. reflexivity.
    + rewrite Qeq_bool_whole_0.
      destruct (Z.eqb_spec (- (Z.abs a mod d)) 0) as [? | _]; [lia |]. change (Qnum (inject_Z ?z)) with z.
      destruct (Z.ltb_spec (- (Z.abs a mod d)) 0) as [_ | ?]; [| lia].
      assert (Hval : a mod d = - (Z.abs a mod d) + d).
      { replace a with (- Z.abs a) at 1 by lia.
        rewrite Z.mod_opp_l_nz by lia. lia. }
      rewrite Hval. apply round64_whole; [| lia].
      now rewrite inject_Z_plus.
  - replace (Z.abs a) with a by lia.
    destruct (Z.eq_dec (a mod d) 0) as [Hz | Hnz].
    + rewrite Hz. reflexivity.
    + rewrite Qeq_bool_whole_0.
      destruct (Z.eqb_spec (a mod d) 0) as [? | _]; [lia |]. change (Qnum (inject_Z ?z)) with z.
      destruct (Z.ltb_spec (a mod d) 0) as [? | _]; [lia | reflexivity].
Qed.

Lemma float_floordiv_whole (a d : Z) :
  0 < d < 2 ^ 53 -> Z.abs a < 2 ^ 53 ->
  B64.float_floordiv (whole_float a) d = whole_float (a / d).
Proof.
  intros Hd Ha. unfold whole_float, B64.float_floordiv.
  rewrite fmod_whole by lia.
  pose proof (Z.mod_pos_bound (Z.abs a) d ltac:(lia)) as Hr.
  pose proof (Z.div_mod (Z.abs a) d ltac:(lia)) as Hdm.
  assert (Hqq : 0 <= Z.abs a / d <= Z.abs a).
  { split; [apply Z.div_pos; lia |]. apply Z.div_le_upper_bound; nia. }
  set (r := Z.abs a mod d) in *. set (qq := Z.abs a / d) in *.
  set (m := if a <? 0 then - r else r).
  set (k := if a <? 0 then - qq else qq).
  assert (Hk : a - m = d * k).
  { unfold m, k. destruct (Z.ltb_spec a 0); lia. }
  assert (Hkb : Z.abs k < 2 ^ 53).
  { unfold k. destruct (a <? 0); lia. }
  rewrite (round64_whole (inject_Z a - inject_Z m) (a - m)).
  2:{ unfold Qminus. now rewrite <- inject_Z_opp, <- inject_Z_plus. }
  2:{ unfold m. destruct (Z.ltb_spec a 0); lia. }
  rewrite (round64_whole (inject_Z (a - m) / inject_Z d) k).
  2:{ rewrite Hk, inject_Z_mult. field.
      change 0%Q with (inject_Z 0). rewrite inject_Z_injective. lia. }
  2: assumption.
  rewrite Qeq_bool_whole_0. change (Qnum (inject_Z m)) with m.
  assert (Hdiv :
    (if m =? 0 then F_fin (inject_Z k)
     else if m <? 0 then B64.fsub (F_fin (inject_Z k)) (F_fin 1)
          else F_fin (inject_Z k))
    = F_fin (inject_Z (a / d)) /\ Z.abs (a / d) < 2 ^ 53).
  { unfold m, k. destruct (Z.ltb_spec a 0) as [Hneg | Hpos].
    - destruct (Z.eqb_spec (- r) 0) as [Hz | Hnz].
      + assert (a / d = - qq) as ->; [| split; [reflexivity | lia]].
        symmetry. apply (Z.div_unique a d (- qq) 0); lia.
      + destruct (Z.ltb_spec (- r) 0) as [_ | ?]; [| lia].
        assert (a / d = - qq - 1) as ->.
        { symmetry. apply (Z.div_unique a d (- qq - 1) (d - r)); lia. }
        split; [| lia].
        change (F_fin 1) with (whole_float 1).
        change (F_fin (inject_Z (- qq))) with (whole_float (- qq)).
        rewrite fsub_whole by lia. reflexivity.
    - assert (a / d = qq) as ->.
      { unfold qq. f_equal. lia. }
      split; [| lia].
      destruct (r =? 0); [reflexivity |].
      destruct (Z.ltb_spec r 0); [lia | reflexivity]. }
  destruct Hdiv as [-> Hbound].
  rewrite Qeq_bool_whole_0.
  destruct (Z.eqb_spec (a / d) 0) as [-> | Hne]; [reflexivity |].
  rewrite Qfloor_Z.
  rewrite (round64_whole (inject_Z (a / d) - inject_Z (a / d)) 0).
  2:{ change (inject_Z 0) with 0%Q. ring. }
  2: lia.
  reflexivity.
Qed.

(** ** The operations of [B64] on whole numbers *)

Lemma floordiv_whole (x : B64.num) (a d : Z) :
  whole x a -> 0 < d < 2 ^ 53 -> Z.abs a < 2 ^ 53 ->
  whole (B64.floordiv x d) (a / d).
Proof.
  intros [-> | ->] Hd Ha; [now left | right].
  cbn [B64.floordiv]. now rewrite float_floordiv_whole.
Qed.

Lemma modulo_whole (x : B64.num) (a d : Z) :
  whole x a -> 0 < d < 2 ^ 53 ->
  whole (B64.modulo x d) (a mod d).
Proof.
  intros [-> | ->] Hd; [now left | right].
  cbn [B64.modulo]. now rewrite float_mod_whole.
Qed.

Lemma geb_whole (x : B64.num) (a d : Z) :
  whole x a -> B64.geb x d = (d <=? a).
Proof.
  intros [-> | ->]; [reflexivity |].
  unfold whole_float. cbn [B64.geb]. unfold Qle_bool, inject_Z.
  cbn [Qnum Qden]. now rewrite !Z.mul_1_r.
Qed.

(** ** The carry on whole numbers *)

Lemma carry_whole (hi lo : B64.num) (a b : Z) :
  whole hi a -> whole lo b -> Z.abs a < 2 ^ 52 -> 0 <= b < 2 ^ 53 ->
  exists hi' lo',
    (if B64.geb lo 60
     then (h' <- B64.add hi (B64.floordiv lo 60) ;; Ok (h', B64.modulo lo 60))%py
     else Ok (hi, lo))
    = Ok (hi', lo')
    /\ whole hi' (a + b / 60) /\ whole lo' (b mod 60).
Proof.
  intros Hhi Hlo Ha Hb. rewrite (geb_whole lo b 60 Hlo).
  assert (Hq : 0 <= b / 60 <= b).
  { split; [apply Z.div_pos; lia |]. apply Z.div_le_upper_bound; lia. }
  assert (Hq' : 60 * (b / 60) <= b) by (apply Z.mul_div_le; lia).
  destruct (Z.leb_spec 60 b) as [Hge | Hlt].
  - destruct (add_whole hi (B64.floordiv lo 60) a (b / 60)) as (r & -> & Hr);
      try assumption; try lia.
    + apply floordiv_whole; [assumption | lia | lia].
    + exists r, (B64.modulo lo 60). split; [reflexivity | split; [assumption |]].
      apply modulo_whole; [assumption | lia].
  - exists hi, lo. split; [reflexivity |].
    rewrite Z.div_small, Z.mod_small, Z.add_0_r by lia. now split.
Qed.

Lemma normalize_whole (h m s : B64.num) (hz mz sz : Z) :
  whole h hz -> whole m mz -> whole s sz ->
  Z.abs hz < 2 ^ 52 -> 0 <= mz < 2 ^ 52 -> 0 <= sz < 2 ^ 52 ->
  exists ts,
    B64.normalize (h, m, s) = Ok ts
    /\ reads ts (hz + (mz + sz / 60) / 60) ((mz + sz / 60) mod 60) (sz mod 60).
Proof.
  intros Hh Hm Hs Hhz Hmz Hsz. unfold B64.normalize.
  assert (Hq : 0 <= sz / 60 <= sz).
  { split; [apply Z.div_pos; lia |]. apply Z.div_le_upper_bound; lia. }
  destruct (carry_whole m s mz sz) as (m1 & s1 & -> & Hm1 & Hs1);
    try assumption; try lia.
  cbn [bind].
  destruct (carry_whole h m1 hz (mz + sz / 60)) as (h2 & m2 & -> & Hh2 & Hm2);
    try assumption; try lia.
  cbn [bind]. eexists. split; [reflexivity |]. now repeat split.
Qed.

(** ** Total seconds of whole components *)

Lemma seconds_of_whole (ts : B64.Timestamp) (h m s : Z) :
  reads ts h m s ->
  Z.abs h < 2 ^ 32 -> Z.abs m < 2 ^ 32 -> Z.abs s < 2 ^ 32 ->
  exists x, B64.seconds_of ts = Ok x /\ whole x (h * 3600 + m * 60 + s).
Proof.
  intros (Hh & Hm & Hs) Bh Bm Bs. unfold B64.seconds_of.
  destruct (mul_whole (B64.ts_h ts) (B64.Int 3600) h 3600) as (hours & -> & Hhours);
    try assumption; try (now left); try lia.
  cbn [bind].
  destruct (mul_whole (B64.ts_m ts) (B64.Int 60) m 60) as (minutes & -> & Hminutes);
    try assumption; try (now left); try lia.
  cbn [bind].
  destruct (add_whole hours minutes (h * 3600) (m * 60)) as (both & -> & Hboth);
    try assumption; try lia.
  cbn [bind].
  apply add_whole; try assumption; lia.
Qed.

Lemma duration_whole (n : string) (st e : B64.Timestamp)
      (h m s h' m' s' : Z) :
  reads st h m s -> reads e h' m' s' ->
  Z.abs h < 2 ^ 32 -> Z.abs m < 2 ^ 32 -> Z.abs s < 2 ^ 32 ->
  Z.abs h' < 2 ^ 32 -> Z.abs m' < 2 ^ 32 -> Z.abs s' < 2 ^ 32 ->
  exists d,
    B64.duration (B64.mkSection n st (B64.E_Time e)) = Ok (Some d)
    /\ whole d ((h' * 3600 + m' * 60 + s') - (h * 3600 + m * 60 + s)).
Proof.
  intros Hst He Bh Bm Bs Bh' Bm' Bs'.
  unfold B64.duration, B64.start_seconds. cbn [B64.end_ B64.start].
  destruct (seconds_of_whole e h' m' s') as (x & -> & Hx); try assumption.
  destruct (seconds_of_whole st h m s) as (y & -> & Hy); try assumption.
  cbn [bind].
  destruct (sub_whole x y (h' * 3600 + m' * 60 + s') (h * 3600 + m * 60 + s))
    as (d & -> & Hd); try assumption; try lia.
  cbn [bind]. now exists d.
Qed.

(** ** What the arithmetic can raise *)

Lemma to_float_raises (x : B64.num) (e : PyError) :
  B64.to_float x = Raise e -> e = OverflowError.
Proof.
  destruct x as [z | f]; cbn [B64.to_float]; [| discriminate].
  destruct (B64.round64 (inject_Z z)); intros H; try discriminate;
    now injection H as <-.
Qed.

Lemma bind_raises {A B : Type} (r : result A) (f : A -> result B) (e : PyError) :
  bind r f = Raise e ->
  r = Raise e \/ exists a, r = Ok a /\ f a = Raise e.
Proof. destruct r as [a | e']; cbn [bind]; intros H; [right; eauto | left; now injection H as ->]. Qed.

Lemma arith_raises on_int on_float (x y : B64.num) (e : PyError) :
  B64.arith on_int on_float x y = Raise e -> e = OverflowError.
Proof.
  intros H.
  assert (G : (a <- B64.to_float x ;; b <- B64.to_float y ;;
               Ok (B64.Float (on_float a b)))%py = Raise e).
  { destruct x, y; try exact H. discriminate. }
  apply bind_raises in G as [G | (a & _ & G)];
    [exact (to_float_raises _ _ G) |].
  apply bind_raises in G as [G | (b & _ & G)];
    [exact (to_float_raises _ _ G) | discriminate].
Qed.

Lemma seconds_of_raises (ts : B64.Timestamp) (e : PyError) :
  B64.seconds_of ts = Raise e -> e = OverflowError.
Proof.
  unfold B64.seconds_of.
  destruct (B64.mul (B64.ts_h ts) _) as [hours |] eqn:E1; cbn [bind];
    [| intros H; injection H as <-; exact (arith_raises _ _ _ _ _ E1)].
  destruct (B64.mul (B64.ts_m ts) _) as [minutes |] eqn:E2; cbn [bind];
    [| intros H; injection H as <-; exact (arith_raises _ _ _ _ _ E2)].
  destruct (B64.add hours minutes) as [both |] eqn:E3; cbn [bind];
    [| intros H; injection H as <-; exact (arith_raises _ _ _ _ _ E3)].
  apply arith_raises.
Qed.

Lemma duration_raises (n : string) (st e : B64.Timestamp) (err : PyError) :
  B64.duration (B64.mkSection n st (B64.E_Time e)) = Raise err ->
  err = OverflowError.
Proof.
  unfold B64.duration, B64.start_seconds. cbn [B64.end_ B64.start].
  destruct (B64.seconds_of e) as [x |] eqn:E1; cbn [bind];
    [| intros H; injection H as <-; exact (seconds_of_raises _ _ E1)].
  destruct (B64.seconds_of st) as [y |] eqn:E2; cbn [bind];
    [| intros H; injection H as <-; exact (seconds_of_raises _ _ E2)].
  destruct (B64.sub x y) as [d |] eqn:E3; cbn [bind]; [discriminate |].
  intros H; injection H as <-; exact (arith_raises _ _ _ _ _ E3).
Qed.

Lemma carry_raises (hi lo : B64.num) (e : PyError) :
  (if B64.geb lo 60
   then (h' <- B64.add hi (B64.floordiv lo 60) ;; Ok (h', B64.modulo lo 60))%py
   else Ok (hi, lo))
  = Raise e ->
  e = OverflowError.
Proof.
  destruct (B64.geb lo 60); [| discriminate].
  destruct (B64.add hi _) eqn:E; cbn [bind]; [discriminate |].
  intros H; injection H as <-; exact (arith_raises _ _ _ _ _ E).
Qed.

Lemma normalize_raises (hms : B64.num * B64.num * B64.num) (e : PyError) :
  B64.normalize hms = Raise e -> e = OverflowError.
Proof.
  destruct hms as [[h m] s]. unfold B64.normalize.
  destruct (if B64.geb s 60 then _ else _) as [[m1 s1] |] eqn:E1; cbn [bind];
    [| intros H; injection H as <-; exact (carry_raises _ _ _ E1)].
  destruct (if B64.geb m1 60 then _ else _) as [[h2 m2] |] eqn:E2; cbn [bind];
    [discriminate |].
  intros H; injection H as <-; exact (carry_raises _ _ _ E2).
Qed.

Lemma int_of_float_raises (x : pyfloat) (e : PyError) :
  int_of_float x = Raise e ->
  e = OverflowError \/ e = ValueError "cannot convert float NaN to integer".
Proof.
  destruct x; cbn [int_of_float]; intros H; try discriminate;
    injection H as <-; auto.
Qed.

Lemma b64_minutes_shape_raises (x : pyfloat) (e : PyError) :
  B64.minutes_shape x = Raise e ->
  e = OverflowError \/ e = ValueError "cannot convert float NaN to integer".
Proof.
  unfold B64.minutes_shape.
  destruct (int_of_float (B64.float_floordiv x 60)) as [h |] eqn:E1; cbn [bind];
    [| intros H; injection H as <-; exact (int_of_float_raises _ _ E1)].
  destruct (int_of_float (B64.float_mod x 60)) as [m |] eqn:E2; cbn [bind];
    [| intros H; injection H as <-; exact (int_of_float_raises _ _ E2)].
  destruct (B64.mul _ _) as [s |] eqn:E3; cbn [bind]; [discriminate |].
  intros H; injection H as <-. left. exact (arith_raises _ _ _ _ _ E3).
Qed.

(** ** [int()] and [float()] on the text of a [\d+] group *)

Lemma b64_float_none (s : string) :
  B64.float_of_string s = None <-> float_of_string s = None.
Proof.
  unfold B64.float_of_string, float_of_string.
  destruct (FloatStr.float_of_string s) as [[q | b |] |];
    split; intros H; try discriminate; reflexivity.
Qed.

Lemma float_of_string_digits (ds : list ascii) :
  digit_text ds ->
  FloatStr.float_of_string (string_of_list_ascii ds)
  = Some (F_fin (inject_Z (digits_val ds))).
Proof.
  intros Hds. pose proof (float_of_digits_ok ds Hds) as H.
  unfold float_of_digits, float_of_string in H.
  destruct (FloatStr.float_of_string (string_of_list_ascii ds)) as [[q | b |] |];
    try discriminate.
  now injection H as ->.
Qed.

Lemma b64_float_of_digits_ok (ds : list ascii) :
  digit_text ds ->
  B64.float_of_digits ds
  = Ok (B64.Float (B64.round64 (inject_Z (digits_val ds)))).
Proof.
  intros Hds. unfold B64.float_of_digits, B64.float_of_string.
  now rewrite (float_of_string_digits ds Hds).
Qed.

Lemma b64_float_of_digits_small (ds : list ascii) :
  digit_text ds -> digits_val ds < 2 ^ 53 ->
  B64.float_of_digits ds = Ok (B64.Float (whole_float (digits_val ds))).
Proof.
  intros Hds Hlt. rewrite (b64_float_of_digits_ok ds Hds).
  rewrite (round64_whole (inject_Z (digits_val ds)) (digits_val ds));
    [reflexivity | reflexivity |].
  pose proof (digits_val_nonneg ds (proj2 Hds)). lia.
Qed.

Lemma b64_int_of_digits_cases (ds : list ascii) :
  digit_text ds ->
  B64.int_of_digits ds
  = if (B64.int_max_str_digits <? length ds)%nat
    then Raise B64.digit_limit else Ok (digits_val ds).
Proof.
  intros [Hne Hd]. unfold B64.int_of_digits.
  destruct (_ <? _)%nat; [reflexivity |].
  destruct ds; [contradiction |]. now rewrite Hd.
Qed.

Lemma b64_int_of_digits_short (ds : list ascii) :
  digit_text ds -> (length ds <= 4300)%nat ->
  B64.int_of_digits ds = Ok (digits_val ds).
Proof.
  intros Hds Hlen. rewrite (b64_int_of_digits_cases ds Hds).
  unfold B64.int_max_str_digits.
  now destruct (Nat.ltb_spec 4300 (length ds)); [lia |].
Qed.

Lemma b64_int_or_zero_cases (g : groups) (k : string) :
  digit_groups g ->
  (exists z, B64.int_or_zero g k = Ok (B64.Int z) /\ 0 <= z)
  \/ B64.int_or_zero g k = Raise B64.digit_limit.
Proof.
  intros Hg. unfold B64.int_or_zero.
  destruct (get k g) as [ds |] eqn:E.
  - apply get_In, Hg in E. rewrite (b64_int_of_digits_cases ds E).
    destruct (_ <? _)%nat; [now right | left].
    exists (digits_val ds). split; [reflexivity |].
    apply digits_val_nonneg, E.
  - left. exists 0. split; [reflexivity | lia].
Qed.

(** The only error of the pattern path before the carry is the digit
    limit of [int()]; the [assert] never fails. *)
Lemma b64_raw_components_raises (t : string) (e : PyError) :
  B64.raw_components t = Raise e -> e = B64.digit_limit.
Proof.
  unfold B64.raw_components.
  destruct (re_match colon_re (list_ascii_of_string t)) as [g |] eqn:Ec.
  - apply colon_re_groups in Ec as (dm & dsec & g0 & -> & Hdm & Hdsec & Hg0).
    assert (Hg : digit_groups (set "seconds" dsec (set "minutes" dm g0)))
      by (repeat apply digit_groups_set; assumption).
    destruct (b64_int_or_zero_cases _ "hours" Hg) as [(h & -> & _) | ->];
      [| cbn [bind]; intros H; now injection H as <-].
    cbn [get set String.eqb Ascii.eqb Bool.eqb bind].
    rewrite (b64_int_of_digits_cases dm Hdm).
    destruct (_ <? _)%nat; cbn [bind]; [intros H; now injection H as <- |].
    rewrite (b64_float_of_digits_ok _ Hdsec). discriminate.
  - destruct (re_match letter_re (list_ascii_of_string t)) as [g |] eqn:El;
      [| exfalso; exact (letter_re_matches _ El)].
    apply (re_match_digit_groups _ _ _ letter_re_captures) in El.
    destruct (b64_int_or_zero_cases _ "hours" El) as [(h & -> & _) | ->];
      [| cbn [bind]; intros H; now injection H as <-].
    destruct (b64_int_or_zero_cases _ "minutes" El) as [(m & -> & _) | ->];
      [| cbn [bind]; intros H; now injection H as <-].
    cbn [bind].
    destruct (get "seconds" g) as [ds |] eqn:Es; [| discriminate].
    apply get_In, El in Es.
    rewrite (b64_float_of_digits_ok _ Es). discriminate.
Qed.

(** ** [parse_time] by branch *)

Lemma b64_parse_time_of_float (t : YamlValue) (x : pyfloat) :
  B64.float_ t = Ok x -> B64.parse_time t = B64.minutes_shape x.
Proof. unfold B64.parse_time. now intros ->. Qed.

Lemma b64_parse_time_of_text (t : string) :
  B64.float_of_string t = None ->
  B64.parse_time (YStr t)
  = (hms <- B64.raw_components t ;; B64.normalize hms)%py.
Proof. unfold B64.parse_time, B64.float_. now intros ->. Qed.

Lemma b64_parse_time_raises (v : YamlValue) (e : PyError) :
  B64.parse_time v = Raise e ->
  (e = TypeError "float() argument must be a string or a real number"
   /\ B64.float_ v = Raise e)
  \/ e = OverflowError
  \/ (e = ValueError "cannot convert float NaN to integer"
      /\ exists x, B64.float_ v = Ok x)
  \/ (e = B64.digit_limit
      /\ exists text, v = YStr text /\ B64.float_of_string text = None).
Proof.
  intros H. destruct (B64.float_ v) as [x | e'] eqn:Ef.
  - rewrite (b64_parse_time_of_float _ _ Ef) in H.
    apply b64_minutes_shape_raises in H as [-> | ->]; [now right; left |].
    right; right; left. split; [reflexivity | now exists x].
  - destruct v; cbn [B64.float_] in Ef; try discriminate.
    + injection Ef as <-. injection H as <-. auto.
    + pose proof (to_float_raises _ _ Ef) as ->.
      unfold B64.parse_time in H. cbn [B64.float_] in H. rewrite Ef in H.
      injection H as <-. now right; left.
    + destruct (B64.float_of_string s) eqn:Es; [discriminate |].
      rewrite (b64_parse_time_of_text s Es) in H.
      destruct (B64.raw_components s) as [hms |] eqn:Er; cbn [bind] in H.
      * apply normalize_raises in H as ->. now right; left.
      * injection H as <-. apply b64_raw_components_raises in Er as ->.
        right; right; right. split; [reflexivity |]. now exists s.
    + injection Ef as <-. injection H as <-. auto.
    + injection Ef as <-. injection H as <-. auto.
Qed.

(** ** The minutes branch on whole numbers *)

Lemma b64_minutes_shape_whole (z : Z) :
  Z.abs z < 2 ^ 53 ->
  B64.minutes_shape (whole_float z) = Ok (whole_minutes z).
Proof.
  intros Hz. unfold B64.minutes_shape.
  rewrite float_floordiv_whole by lia.
  rewrite !float_mod_whole by lia.
  unfold whole_float at 1 2. rewrite !int_of_float_integer. cbn [bind].
  rewrite Z.mod_1_r. reflexivity.
Qed.

Lemma b64_float_of_int (z : Z) :
  Z.abs z < 2 ^ 53 -> B64.float_ (YInt z) = Ok (whole_float z).
Proof.
  intros Hz. cbn [B64.float_]. apply to_float_whole; [now left | exact Hz].
Qed.

Lemma b64_float_of_digit_text (ds : list ascii) :
  digit_text ds -> digits_val ds < 2 ^ 53 ->
  B64.float_ (YStr (string_of_list_ascii ds))
  = Ok (whole_float (digits_val ds)).
Proof.
  intros Hds Hlt. pose proof (b64_float_of_digits_small ds Hds Hlt) as H.
  unfold B64.float_of_digits in H. cbn [B64.float_].
  destruct (B64.float_of_string (string_of_list_ascii ds)); [| discriminate].
  now injection H as ->.
Qed.

(** * The statements of the specification *)

(** C1. The cascading default is missing from the code.  For the
    document [{A: {end: "1:00:00"}, B: {end: "2:00:00"}}] the loader
    returns two sections that both start at [(0,0,0)]: section B does
    not start at A's end, and [(0,0,0)] is not equal to
    [Timestamp(1,0,0)].  [load_config_sections] has the general fact:
    every section is built from the initial [prev_start]. *)
Theorem cascade_document_B_starts_at_zero :
  load_config cascade_document
  = Ok [mkSection "A" zero_tuple
          (E_Time (mkTimestamp (PInt 1) (PInt 0) (PFloat 0)));
        mkSection "B" zero_tuple
          (E_Time (mkTimestamp (PInt 2) (PInt 0) (PFloat 0)))]
  /\ ts_eqb zero_tuple (mkTimestamp (PInt 1) (PInt 0) (PInt 0)) = false.
Proof. split; reflexivity. Qed.

(** C2. A text of none of the three shapes is parsed to
    [Timestamp(0,0,0)]: so for ["not a time"] and for the empty text.
    [letter_re] matches every text, so the assertion of line 69 cannot
    fail, and [parse_time] raises [AssertionError] on no text at all. *)
Theorem unrecognized_text_parses_to_zero :
  parse_time (YStr "not a time") = Ok zero_tuple
  /\ parse_time (YStr "") = Ok zero_tuple
  /\ (forall t : string, re_match letter_re (list_ascii_of_string t) <> None)
  /\ (forall (t : string) (msg : string),
         parse_time (YStr t) <> Raise (AssertionError msg)).
Proof.
  split; [reflexivity |]. split; [reflexivity |].
  split; [intros t; apply letter_re_matches |].
  intros t msg. destruct (float_of_string t) as [x |] eqn:Ef.
  - rewrite (parse_time_of_float (YStr t) x) by (cbn; now rewrite Ef).
    destruct x as [q | b |]; discriminate.
  - destruct (parse_time_text_normalized t Ef) as (h & m & s & t' & _ & -> & _).
    discriminate.
Qed.

(** C3. The bare-number shorthand raises.  The document [{A: 5}] gives
    no section: the assignment [section_cfg['end'] = v] is a
    [TypeError], and so it is for every int and every float, whatever
    came before. *)
Theorem bare_number_raises_type_error :
  load_config (YDict [("A"%string, YInt 5)])
  = Raise (TypeError "'Section' object does not support item assignment")
  /\ (forall prev k z,
         build_section prev k (YInt z)
         = Raise (TypeError "'Section' object does not support item assignment"))
  /\ (forall prev k x,
         build_section prev k (YFloat x)
         = Raise (TypeError "'Section' object does not support item assignment")).
Proof. repeat split. Qed.

(** C4. A sub-mapping without [end] leaves the int [-1] in the section,
    not [None].  For [{A: {start: "0:00:10"}}] the section's [end] is
    [-1]; its [duration] raises [TypeError], and so does building the
    argument vector, which takes the branch that adds ["-t"].  A
    section whose [end] is [None] would get a vector without ["-t"]. *)
Theorem missing_end_is_minus_one :
  load_config open_ended_document = Ok [open_ended_section]
  /\ end_ open_ended_section <> E_None
  /\ duration open_ended_section
     = Raise (TypeError "'int' object is not subscriptable")
  /\ (forall input out_dir,
         extract_section input out_dir open_ended_section
         = Raise (TypeError "'int' object is not subscriptable"))
  /\ (forall prev k,
         build_section prev k (YDict []) = Ok (mkSection k prev (E_Int (-1))))
  /\ (forall n st input out_dir,
         extract_section input out_dir (mkSection n st E_None)
         = Ok [Word "ffmpeg"; Word "-i"; Word (path_text input);
               Word "-c"; Word "copy";
               Word "-ss"; StrNum (seconds_of st);
               OutFile out_dir (n ++ path_suffix input)]).
Proof. repeat split. discriminate. Qed.

(** C5. With hours the colon shape parses: ["1:02:03"] gives
    [Timestamp(1, 2, 3.0)].  Without them it does not: [colon_re] wants
    two colons, ["02:03"] matches [letter_re] on the empty prefix and
    the result is [Timestamp(0,0,0)], not [Timestamp(0,2,3)]. *)
Theorem colon_shape_needs_two_colons :
  parse_time (YStr "1:02:03")
  = Ok (mkTimestamp (PInt 1) (PInt 2) (PFloat 3))
  /\ re_match colon_re (list_ascii_of_string "02:03") = None
  /\ parse_time (YStr "02:03") = Ok zero_tuple
  /\ ts_eqb zero_tuple (mkTimestamp (PInt 0) (PInt 2) (PInt 3)) = false.
Proof. repeat split. Qed.

(** C6. The seconds of the colon shape are digits only.  For
    ["1:02:03.5"] the group reads ["03"], the rest is left over and the
    seconds are [3.0], not [3.5].  The letter shape is the same: in
    ["1.5s"] nothing matches and the result is [Timestamp(0,0,0)]. *)
Theorem colon_seconds_are_whole :
  parse_time (YStr "1:02:03.5")
  = Ok (mkTimestamp (PInt 1) (PInt 2) (PFloat 3))
  /\ Num.eqb (PFloat 3) (PFloat (7 # 2)) = false
  /\ parse_time (YStr "1.5s") = Ok zero_tuple.
Proof. repeat split. Qed.

(** ** Numbers are minutes *)

(** C7. A value that [float()] accepts is read as minutes and the
    patterns are not tried: the result is that of the float branch on
    the binary64 value of [float(t)].  For a whole number [z] below
    [2^53], written as an int, as a float or as a text of digits, this
    is [z // 60] hours, [z % 60] minutes and [0.0] seconds.
    [parse_time("90")] and [parse_time(90.0)] are both
    [Timestamp(1, 30, 0.0)], which is equal to [Timestamp(1,30,0)],
    although the raw components the patterns find in ["90"] are all
    zero.  A fraction or an exponent is read as well: ["5.5"] is five
    minutes and thirty seconds, ["1e2"] is a hundred minutes, ["1.1"]
    has the seconds [6.000000000000005] of the rounded
    [(1.1 % 1) * 60].  The branch carries nothing: [-1e-20] minutes is
    [Timestamp(-1, 60, 60.0)]. *)
Theorem numbers_are_read_as_minutes :
  (forall (t : YamlValue) (x : pyfloat),
      B64.float_ t = Ok x -> B64.parse_time t = B64.minutes_shape x)
  /\ (forall z : Z,
         Z.abs z < 2 ^ 53 ->
         B64.parse_time (YInt z) = Ok (whole_minutes z)
         /\ B64.parse_time (YFloat (whole_float z)) = Ok (whole_minutes z))
  /\ (forall ds : list ascii,
         digit_text ds -> digits_val ds < 2 ^ 53 ->
         B64.parse_time (YStr (string_of_list_ascii ds))
         = Ok (whole_minutes (digits_val ds)))
  /\ B64.parse_time (YStr "90")
     = Ok (B64.mkTimestamp (B64.Int 1) (B64.Int 30) (B64.Float (F_fin 0)))
  /\ B64.parse_time (YFloat (F_fin 90))
     = Ok (B64.mkTimestamp (B64.Int 1) (B64.Int 30) (B64.Float (F_fin 0)))
  /\ reads (B64.mkTimestamp (B64.Int 1) (B64.Int 30) (B64.Float (F_fin 0)))
           1 30 0
  /\ B64.raw_components "90" = Ok (B64.Int 0, B64.Int 0, B64.Int 0)
  /\ B64.parse_time (YStr "5.5")
     = Ok (B64.mkTimestamp (B64.Int 0) (B64.Int 5) (B64.Float (F_fin 30)))
  /\ B64.parse_time (YStr "1e2")
     = Ok (B64.mkTimestamp (B64.Int 1) (B64.Int 40) (B64.Float (F_fin 0)))
  /\ B64.parse_time (YStr "1.1")
     = Ok (B64.mkTimestamp
             (B64.Int 0) (B64.Int 1)
             (B64.Float (F_fin (3377699720527875 # 562949953421312))))
  /\ B64.parse_time (YStr "-1e-20")
     = Ok (B64.mkTimestamp (B64.Int (-1)) (B64.Int 60) (B64.Float (F_fin 60))).
Proof.
  split; [exact b64_parse_time_of_float |].
  split.
  { intros z Hz. split.
    - rewrite (b64_parse_time_of_float _ _ (b64_float_of_int z Hz)).
      now apply b64_minutes_shape_whole.
    - rewrite (b64_parse_time_of_float (YFloat (whole_float z)) _ eq_refl).
      now apply b64_minutes_shape_whole. }
  split.
  { intros ds Hds Hlt.
    rewrite (b64_parse_time_of_float _ _ (b64_float_of_digit_text ds Hds Hlt)).
    apply b64_minutes_shape_whole.
    pose proof (digits_val_nonneg ds (proj2 Hds)). lia. }
  split; [reflexivity |]. split; [reflexivity |].
  split; [repeat split; (now left) || (now right) |].
  split; [reflexivity |].
  repeat split; vm_compute; reflexivity.
Qed.

Lemma numbers_are_read_as_minutes_witness :
  B64.parse_time (YInt 90) = Ok (whole_minutes 90)
  /\ whole_minutes 90
     = B64.mkTimestamp (B64.Int 1) (B64.Int 30) (B64.Float (F_fin 0))
  /\ B64.parse_time (YStr "0090")
     = Ok (whole_minutes 90).
Proof.
  split; [| split].
  - apply (proj1 (proj2 numbers_are_read_as_minutes) 90). reflexivity.
  - reflexivity.
  - apply (proj1 (proj2 (proj2 numbers_are_read_as_minutes))
             (list_ascii_of_string "0090")).
    + split; [discriminate | reflexivity].
    + reflexivity.
Defined.

(** ** Carry normalization *)




(** ** [duration] *)

(** C9 has a failure mode.  The text [long_hours], a one and four
    hundred zeros before [h5s], parses to
    [Timestamp(10^400, 0, 5.0)].  A section that starts and ends there
    loads, and its [duration] raises [OverflowError]: the int total of
    the hours and minutes is too large for the float it is converted to
    when the seconds are added. *)
Lemma duration_overflows_on_long_hours :
  B64.parse_time (YStr long_hours) = Ok long_stamp
  /\ B64.load_config long_document
     = Ok [B64.mkSection "A" long_stamp (B64.E_Time long_stamp)]
  /\ B64.duration (B64.mkSection "A" long_stamp (B64.E_Time long_stamp))
     = Raise OverflowError.
Proof.
  do 2 (split; [vm_compute; reflexivity |]). vm_compute; reflexivity.
Qed.

(** C9. [duration] is [None] exactly when [end] is [None].  With an end
    timestamp it is that timestamp's [h*3600 + m*60 + s] minus the
    start's, in Python's arithmetic: the exact difference when the six
    components are whole numbers of magnitude below [2^32], and the
    only error it can raise is [OverflowError].  Nothing is validated:
    an end before the start gives a negative number.  Fractions are
    rounded as binary64 rounds them: a start of [1.7999999999999998]
    seconds, which is what [0.03] minutes parses to, before an end of
    one hour gives [3598.2]. *)
Theorem duration_of_whole_times :
  (forall sec : B64.Section,
      B64.duration sec = Ok None <-> B64.end_ sec = B64.E_None)
  /\ (forall (n : string) (st e : B64.Timestamp) (h m s h' m' s' : Z),
         reads st h m s -> reads e h' m' s' ->
         Z.abs h < 2 ^ 32 -> Z.abs m < 2 ^ 32 -> Z.abs s < 2 ^ 32 ->
         Z.abs h' < 2 ^ 32 -> Z.abs m' < 2 ^ 32 -> Z.abs s' < 2 ^ 32 ->
         exists d,
           B64.duration (B64.mkSection n st (B64.E_Time e)) = Ok (Some d)
           /\ whole d ((h' * 3600 + m' * 60 + s') - (h * 3600 + m * 60 + s)))
  /\ (forall (n : string) (st e : B64.Timestamp) (err : PyError),
         B64.duration (B64.mkSection n st (B64.E_Time e)) = Raise err ->
         err = OverflowError)
  /\ B64.duration
       (B64.mkSection "late"
          (B64.mkTimestamp (B64.Int 0) (B64.Int 10) (B64.Int 0))
          (B64.E_Time (B64.mkTimestamp (B64.Int 0) (B64.Int 5) (B64.Int 0))))
     = Ok (Some (B64.Int (-300)))
  /\ B64.duration
       (B64.mkSection "rounded"
          (B64.mkTimestamp
             (B64.Int 0) (B64.Int 0)
             (B64.Float (F_fin (2026619832316723 # 1125899906842624))))
          (B64.E_Time (B64.mkTimestamp (B64.Int 1) (B64.Int 0) (B64.Int 0))))
     = Ok (Some (B64.Float (F_fin (3956262739063603 # 1099511627776)))).
Proof.
  split.
  { intros [n st [| e | z]]; unfold B64.duration; cbn [B64.end_];
      split; intros H; try reflexivity; try discriminate.
    exfalso. unfold B64.start_seconds in H.
    destruct (B64.seconds_of e); cbn [bind] in H; [| discriminate].
    destruct (B64.seconds_of _); cbn [bind] in H; [| discriminate].
    destruct (B64.sub _ _); discriminate. }
  split; [exact duration_whole |].
  split; [exact duration_raises |].
  split; vm_compute; reflexivity.
Qed.

Lemma duration_of_whole_times_witness :
  exists d,
    B64.duration
      (B64.mkSection "A"
         (B64.mkTimestamp (B64.Int 0) (B64.Float (whole_float 1))
                          (B64.Float (whole_float 30)))
         (B64.E_Time (B64.mkTimestamp (B64.Int 1) (B64.Int 0) (B64.Int 0))))
    = Ok (Some d)
    /\ whole d ((1 * 3600 + 0 * 60 + 0) - (0 * 3600 + 1 * 60 + 30)).
Proof.
  apply (proj1 (proj2 duration_of_whole_times));
    try reflexivity;
    repeat split; (now left) || (now right).
Defined.

(** C10. A boolean value is a bare number to the loader: the test
    [isinstance(v, (float, int))] holds for it and the loop body does
    with it what it does with an int.  When [load_config] fails with
    the invalid-section error, some value of the document is neither a
    number nor a mapping; that value is not a boolean. *)
Theorem bool_value_is_bare_number :
  (forall b, isinstance_float_int (YBool b) = true)
  /\ (forall prev k b z,
         build_section prev k (YBool b) = build_section prev k (YInt z))
  /\ (forall items,
         load_config (YDict items) = Raise invalid_section_config ->
         exists k v,
           In (k, v) items
           /\ isinstance_float_int v = false
           /\ forall b, v <> YBool b).
Proof.
  split; [reflexivity |]. split; [reflexivity |].
  intros items H. apply load_loop_invalid in H as (k & v & Hin & Hv & _).
  exists k, v. repeat split; try assumption.
  intros b ->. discriminate.
Qed.

Lemma bool_value_is_bare_number_witness :
  exists k v,
    In (k, v) [("A"%string, YStr "x")]
    /\ isinstance_float_int v = false
    /\ forall b, v <> YBool b.
Proof.
  apply (proj2 (proj2 bool_value_is_bare_number)). reflexivity.
Defined.

(** * Further properties *)

(** ** More on [parse_time] *)

Section MinutesTotal.
Local Open Scope Q_scope.


End MinutesTotal.


(** ** The matcher on texts of a known form *)

Section Greedy.
Context {A : Type}.
Implicit Types (s pre rest : list ascii).

(** A greedy run reads the whole of a maximal stretch when the rest of
    the pattern accepts what follows. *)
Lemma star_greedy p pre rest (k : list ascii -> option A) x :
  forallb p pre = true -> head_not p rest = true ->
  k rest = Some x -> star p (pre ++ rest) k = Some x.
Proof.
  intros Hp Hr Hk. induction pre as [| c pre IH]; cbn [app star].
  - destruct rest as [| c r]; [exact Hk |].
    cbn [head_not] in Hr. apply negb_true_iff in Hr. cbn [star]. now rewrite Hr.
  - cbn [forallb] in Hp. apply andb_prop in Hp as [Hc Hp].
    now rewrite Hc, (IH Hp).
Qed.

Lemma group_greedy name ds rest g (k : list ascii -> groups -> option A) x :
  digit_text ds -> head_not is_digit rest = true ->
  k rest (set name ds g) = Some x ->
  run (Group name digits) (ds ++ rest) g k = Some x.
Proof.
  intros [Hne Hd] Hr Hk. cbn [run digits]. unfold plus.
  destruct ds as [| c ds]; [contradiction |].
  cbn [forallb] in Hd. apply andb_prop in Hd as [Hc Hd].
  cbn [app]. rewrite Hc.
  apply (star_greedy _ _ _ _ _ Hd Hr).
  change (c :: ds ++ rest) with ((c :: ds) ++ rest).
  rewrite consumed_prefix. exact Hk.
Qed.

(** A run of digits fails when the rest of the pattern refuses every
    place it could stop at. *)
Lemma star_digits_fail ds rest (k : list ascii -> option A) :
  forallb is_digit ds = true -> head_not is_digit rest = true ->
  (forall suf,
      suf = rest \/ (exists c t, suf = c :: t /\ is_digit c = true) ->
      k suf = None) ->
  star is_digit (ds ++ rest) k = None.
Proof.
  intros Hd Hr Hk. induction ds as [| c ds IH]; cbn [app star].
  - destruct rest as [| c r]; [apply Hk; now left |].
    cbn [head_not] in Hr. apply negb_true_iff in Hr. cbn [star]. rewrite Hr.
    apply Hk. now left.
  - cbn [forallb] in Hd. apply andb_prop in Hd as [Hc Hd].
    rewrite Hc, (IH Hd). apply Hk. right. eauto.
Qed.

Lemma group_fail name ds rest g (k : list ascii -> groups -> option A) :
  forallb is_digit ds = true -> head_not is_digit rest = true ->
  (forall suf g',
      suf = rest \/ (exists c t, suf = c :: t /\ is_digit c = true) ->
      k suf g' = None) ->
  run (Group name digits) (ds ++ rest) g k = None.
Proof.
  intros Hd Hr Hk. cbn [run digits]. unfold plus.
  destruct ds as [| c ds]; cbn [app].
  - destruct rest as [| c r]; [reflexivity |].
    cbn [head_not] in Hr. apply negb_true_iff in Hr. now rewrite Hr.
  - cbn [forallb] in Hd. apply andb_prop in Hd as [Hc Hd]. rewrite Hc.
    apply star_digits_fail; [exact Hd | exact Hr |].
    intros suf H. apply Hk. exact H.
Qed.

(** A single character of a class that holds no digit is refused at
    every such place. *)
Lemma cls_refuses q r rest suf g (k : list ascii -> groups -> option A) :
  (forall c, is_digit c = true -> q c = false) ->
  head_not q rest = true ->
  suf = rest \/ (exists c t, suf = c :: t /\ is_digit c = true) ->
  run (Seq (Cls q) r) suf g k = None.
Proof.
  intros Hq Hr [-> | (c & t & -> & Hc)]; cbn [run].
  - destruct rest as [| c t]; [reflexivity |].
    cbn [head_not] in Hr. apply negb_true_iff in Hr. now rewrite Hr.
  - now rewrite (Hq c Hc).
Qed.

End Greedy.

Lemma digit_not_one_of (cs : string) :
  forallb (fun a => negb (is_digit a)) (list_ascii_of_string cs) = true ->
  forall c, is_digit c = true -> one_of cs c = false.
Proof.
  unfold one_of. intros H c Hc.
  induction (list_ascii_of_string cs) as [| a l IH]; [reflexivity |].
  cbn in H. apply andb_prop in H as [Ha Hl]. apply negb_true_iff in Ha.
  cbn [existsb]. rewrite (IH Hl), orb_false_r.
  unfold is_char. destruct (Ascii.eqb_spec c a) as [-> |]; [congruence | reflexivity].
Qed.

Lemma digit_not_colon c : is_digit c = true -> is_char ":" c = false.
Proof. apply digit_not_char. reflexivity. Qed.

(** A part of [letter_re] is passed over when the digits at hand are
    not followed by its letter. *)
Lemma letter_part_skip {A} name suffix ds rest g
      (k : list ascii -> groups -> option A) :
  forallb (fun a => negb (is_digit a)) (list_ascii_of_string suffix) = true ->
  forallb is_digit ds = true ->
  head_not is_digit rest = true ->
  head_not (one_of suffix) rest = true ->
  run (letter_part name suffix) (ds ++ rest) g k = k (ds ++ rest) g.
Proof.
  intros Hs Hd Hr Hq. unfold letter_part.
  change (run (Opt ?r) ?s ?g ?k)
    with (match run r s g k with Some x => Some x | None => k s g end).
  rewrite run_seq, group_fail; [reflexivity | exact Hd | exact Hr |].
  intros suf g' H.
  apply (cls_refuses _ _ rest); [apply digit_not_one_of | |]; assumption.
Qed.

Lemma separator_read {A} sep rest g (k : list ascii -> groups -> option A) x :
  is_separator sep = true ->
  head_not is_space rest = true -> head_not (is_char ",") rest = true ->
  k rest g = Some x ->
  run (Seq (Opt (lit ",")) (Star is_space)) (sep ++ rest) g k = Some x.
Proof.
  intros Hsep Hr Hc Hk. rewrite run_seq.
  change (run (Opt ?r) ?s ?g ?k)
    with (match run r s g k with Some x => Some x | None => k s g end).
  assert (Hstar : forall ws, forallb is_space ws = true ->
                             run (Star is_space) (ws ++ rest) g k = Some x).
  { intros ws Hws. cbn [run]. now apply star_greedy. }
  destruct sep as [| c ws].
  - cbn [app]. unfold lit. cbn [run].
    destruct rest as [| c r]; [exact (Hstar [] eq_refl) |].
    cbn [head_not] in Hc. apply negb_true_iff in Hc. rewrite Hc.
    exact (Hstar [] eq_refl).
  - cbn [is_separator] in Hsep. cbn [app]. unfold lit.
    change (run (Cls ?p) (c :: ?s) ?g ?k)
      with (if p c then k s g else None).
    destruct (is_char "," c).
    + now rewrite (Hstar ws Hsep).
    + exact (Hstar (c :: ws) Hsep).
Qed.

(** A part of [letter_re] reads its component in full when the rest of
    the pattern accepts what follows. *)
Lemma letter_part_take {A} name suffix ds l sep rest g
      (k : list ascii -> groups -> option A) x :
  digit_text ds -> one_of suffix l = true -> is_digit l = false ->
  is_separator sep = true ->
  head_not is_space rest = true -> head_not (is_char ",") rest = true ->
  k rest (set name ds g) = Some x ->
  run (letter_part name suffix) (ds ++ l :: sep ++ rest) g k = Some x.
Proof.
  intros Hds Hl Hnd Hsep Hr Hc Hk. unfold letter_part.
  change (run (Opt ?r) ?s ?g ?k)
    with (match run r s g k with Some x => Some x | None => k s g end).
  rewrite run_seq.
  rewrite (group_greedy name ds (l :: sep ++ rest) g _ x); auto.
  - cbn. now rewrite Hnd.
  - rewrite run_seq.
    change (run (Cls ?p) (l :: ?s) ?g ?k)
      with (if p l then k s g else None).
    rewrite Hl. now apply separator_read.
Qed.

(** ** Texts that [float()] and [colon_re] turn down *)

Lemma one_of_In (cs : string) (c : ascii) :
  one_of cs c = true -> In c (list_ascii_of_string cs).
Proof.
  unfold one_of. intros H. apply existsb_exists in H as (a & Hin & Ha).
  unfold is_char in Ha. apply Ascii.eqb_eq in Ha. now subst a.
Qed.

Ltac letter_cases H :=
  apply one_of_In in H; cbn [list_ascii_of_string In] in H;
  repeat (destruct H as [H | H]; [subst |]); [.. | contradiction].

Lemma float_lstrip_keeps (c : ascii) (X Y : list ascii) :
  is_float_space c = false ->
  exists X', FloatStr.lstrip (X ++ c :: Y) = X' ++ c :: Y.
Proof.
  intros Hc. induction X as [| a X IH]; cbn [app FloatStr.lstrip].
  - exists []. now rewrite Hc.
  - destruct (is_float_space a); [exact IH |]. now exists (a :: X).
Qed.

(** [float()]'s strip leaves digits and the character after them. *)
Lemma float_strip_keeps (d : list ascii) (c : ascii) (R : list ascii) :
  forallb is_digit d = true -> is_float_space c = false ->
  exists R', FloatStr.strip (d ++ c :: R) = d ++ c :: R'.
Proof.
  intros Hd Hc. unfold FloatStr.strip.
  assert (L : FloatStr.lstrip (d ++ c :: R) = d ++ c :: R).
  { destruct d as [| a d]; cbn [app FloatStr.lstrip]; [now rewrite Hc |].
    cbn [forallb] in Hd. apply andb_prop in Hd as [Ha _].
    now rewrite (digit_not_float_space _ Ha). }
  rewrite L, rev_app_distr. cbn [rev]. rewrite <- app_assoc. cbn [app].
  destruct (float_lstrip_keeps c (rev R) (rev d) Hc) as (X' & ->).
  exists (rev X'). rewrite rev_app_distr. cbn [rev].
  now rewrite rev_involutive, <- app_assoc.
Qed.

Lemma digitpart_rest_stop (d : list ascii) (c : ascii) (R : list ascii) :
  forallb is_digit d = true -> is_digit c = false -> is_char "_" c = false ->
  FloatStr.digitpart_rest (d ++ c :: R) = (d, c :: R).
Proof.
  intros Hd Hc Hu. induction d as [| a d IH]; cbn [app FloatStr.digitpart_rest].
  - now rewrite Hc, Hu.
  - cbn [forallb] in Hd. apply andb_prop in Hd as [Ha Hd].
    now rewrite Ha, (IH Hd).
Qed.

(** Digits followed by a unit letter or a colon are no number. *)
Lemma float_none_after_digits (d : list ascii) (c : ascii) (R : list ascii) :
  forallb is_digit d = true -> one_of "hHmMsS:" c = true ->
  float_of_string (string_of_list_ascii (d ++ c :: R)) = None.
Proof.
  intros Hd Hc.
  unfold float_of_string, FloatStr.float_of_string.
  rewrite list_ascii_of_string_of_list_ascii.
  assert (Hfacts : is_float_space c = false /\ is_digit c = false
                   /\ is_char "_" c = false)
    by (letter_cases Hc; repeat split).
  destruct Hfacts as (Hsp & Hnd & Hu).
  destruct (float_strip_keeps d c R Hd Hsp) as (R' & ->).
  destruct d as [| a d]; cbn [app].
  - letter_cases Hc; reflexivity.
  - cbn [forallb] in Hd. apply andb_prop in Hd as [Ha Hd].
    unfold FloatStr.sign.
    rewrite (digit_not_char "-" a eq_refl Ha), (digit_not_char "+" a eq_refl Ha).
    rewrite !(not_word_digit _ a _ Ha) by reflexivity.
    cbn [orb]. unfold FloatStr.number, FloatStr.digitpart.
    rewrite Ha, (digitpart_rest_stop _ _ _ Hd Hnd Hu).
    letter_cases Hc; reflexivity.
Qed.

(** [colon_re] does not match digits that no colon follows. *)
Lemma colon_re_none (d rest : list ascii) :
  forallb is_digit d = true ->
  head_not is_digit rest = true -> head_not (is_char ":") rest = true ->
  re_match colon_re (d ++ rest) = None.
Proof.
  intros Hd Hr Hc. unfold re_match, colon_re. rewrite run_seq.
  change (run (Opt ?r) ?s ?g ?k)
    with (match run r s g k with Some x => Some x | None => k s g end).
  rewrite group_fail; [| exact Hd | exact Hr |].
  - apply (cls_refuses _ _ rest); [exact digit_not_colon | exact Hc |].
    destruct d as [| a d]; [now left |].
    cbn [forallb] in Hd. apply andb_prop in Hd as [Ha _]. right. cbn [app]. eauto.
  - intros suf g' H.
    apply (cls_refuses _ _ rest); [exact digit_not_colon | exact Hc | exact H].
Qed.

Lemma digit_text_head p (d rest : list ascii) :
  (forall c, is_digit c = true -> p c = false) ->
  digit_text d -> head_not p (d ++ rest) = true.
Proof.
  intros Hp [Hne Hd]. destruct d as [| a d]; [contradiction |].
  cbn [forallb] in Hd. apply andb_prop in Hd as [Ha _].
  cbn [app head_not]. now rewrite (Hp a Ha).
Qed.

Lemma digit_not_space c : is_digit c = true -> is_space c = false.
Proof.
  intros H. apply is_digit_range in H. unfold is_space.
  split_tests; simpl; try reflexivity; lia.
Qed.

Lemma digit_not_comma c : is_digit c = true -> is_char "," c = false.
Proof. apply digit_not_char. reflexivity. Qed.

(** ** The colon shape *)

Lemma opt_text_digits (d : option (list ascii)) :
  opt_digit_text d -> forallb is_digit (opt_text d) = true.
Proof. destruct d as [ds |]; [intros [_ H]; exact H | reflexivity]. Qed.

Lemma colon_tail_reads (dm ds tail : list ascii) (g : groups) :
  digit_text dm -> digit_text ds -> head_not is_digit tail = true ->
  run (Seq (lit ":")
           (Seq (Group "minutes" digits)
                (Seq (lit ":") (Group "seconds" digits))))
      (":"%char :: dm ++ ":"%char :: ds ++ tail) g (fun _ g' => Some g')
  = Some (set "seconds" ds (set "minutes" dm g)).
Proof.
  intros Hm Hs Ht. rewrite run_seq.
  change (run (lit ":") (":"%char :: ?s) ?g ?k) with (k s g). cbn beta.
  rewrite run_seq. apply group_greedy; [exact Hm | reflexivity |].
  rewrite run_seq.
  change (run (lit ":") (":"%char :: ?s) ?g ?k) with (k s g). cbn beta.
  apply group_greedy; [exact Hs | exact Ht | reflexivity].
Qed.

Lemma colon_re_reads (dh : option (list ascii)) (dm ds tail : list ascii) :
  opt_digit_text dh -> digit_text dm -> digit_text ds ->
  head_not is_digit tail = true ->
  re_match colon_re (opt_text dh ++ ":"%char :: dm ++ ":"%char :: ds ++ tail)
  = Some (set "seconds" ds
            (set "minutes" dm
                 match dh with Some d => set "hours" d [] | None => [] end)).
Proof.
  intros Hh Hm Hs Ht. unfold re_match, colon_re. rewrite run_seq.
  change (run (Opt ?r) ?s ?g ?k)
    with (match run r s g k with Some x => Some x | None => k s g end).
  destruct dh as [d |]; cbn [opt_text app].
  - rewrite (group_greedy "hours" d _ [] _
               (set "seconds" ds (set "minutes" dm (set "hours" d [])))).
    + reflexivity.
    + exact Hh.
    + reflexivity.
    + now apply colon_tail_reads.
  - change (run (Group "hours" digits) (":"%char :: ?s) ?g ?k)
      with (@None groups).
    now apply colon_tail_reads.
Qed.

(** ** Texts that end up as zero *)

Lemma letter_re_skips (d rest : list ascii) :
  forallb is_digit d = true ->
  head_not is_digit rest = true ->
  head_not (one_of "hH") rest = true ->
  head_not (one_of "mM") rest = true ->
  head_not (one_of "sS") rest = true ->
  re_match letter_re (d ++ rest) = Some [].
Proof.
  intros Hd Hr H1 H2 H3. unfold re_match, letter_re.
  repeat first [ rewrite run_seq
               | rewrite letter_part_skip by (reflexivity || assumption) ].
  reflexivity.
Qed.

Lemma zero_when_nothing_matches (t : list ascii) :
  float_of_string (string_of_list_ascii t) = None ->
  re_match colon_re t = None ->
  re_match letter_re t = Some [] ->
  parse_time (YStr (string_of_list_ascii t)) = Ok zero_tuple.
Proof.
  intros Hf Hc Hl. rewrite (parse_time_of_text _ Hf).
  unfold raw_components. rewrite list_ascii_of_string_of_list_ascii, Hc, Hl.
  reflexivity.
Qed.

(** X4. Minutes and seconds with one colon are not read at all: for
    all digits [dm] and [ds], the text [dm:ds] (and anything after it
    that is no digit and no colon) parses to [Timestamp(0, 0, 0)]. *)
Theorem parse_time_one_colon_is_zero (dm ds tail : list ascii) :
  digit_text dm -> forallb is_digit ds = true ->
  head_not is_digit tail = true -> head_not (is_char ":") tail = true ->
  parse_time (YStr (string_of_list_ascii (dm ++ ":"%char :: ds ++ tail)))
  = Ok zero_tuple.
Proof.
  intros [Hne Hm] Hs Ht Hc.
  apply zero_when_nothing_matches.
  - apply float_none_after_digits; [exact Hm | reflexivity].
  - unfold re_match, colon_re. rewrite run_seq.
    change (run (Opt ?r) ?s ?g ?k)
      with (match run r s g k with Some x => Some x | None => k s g end).
    rewrite group_fail; [| exact Hm | reflexivity |].
    + apply (cls_refuses _ _ []); [exact digit_not_colon | reflexivity |].
      destruct dm as [| a dm]; [contradiction |].
      cbn [forallb] in Hm. apply andb_prop in Hm as [Ha _].
      right. cbn [app]. eauto.
    + intros suf g' [-> | H].
      * rewrite run_seq.
        change (run (lit ":") (":"%char :: ?s) ?g ?k) with (k s g). cbn beta.
        rewrite run_seq. apply group_fail; [exact Hs | exact Ht |].
        intros suf g'' H.
        apply (cls_refuses _ _ tail); [exact digit_not_colon | exact Hc | exact H].
      * apply (cls_refuses _ _ []);
          [exact digit_not_colon | reflexivity | right; exact H].
  - apply letter_re_skips; try reflexivity. exact Hm.
Qed.

Lemma parse_time_one_colon_is_zero_witness :
  parse_time (YStr "12:30pm") = Ok zero_tuple.
Proof.
  apply (parse_time_one_colon_is_zero
           (list_ascii_of_string "12") (list_ascii_of_string "30")
           (list_ascii_of_string "pm"));
    repeat split; discriminate.
Defined.

Lemma head_not_subset (big small : string) (rest : list ascii) :
  (forall c, one_of big c = false -> one_of small c = false) ->
  head_not (one_of big) rest = true -> head_not (one_of small) rest = true.
Proof.
  intros Hsub. destruct rest as [| c r]; [reflexivity |].
  cbn [head_not]. rewrite !negb_true_iff. apply Hsub.
Qed.

Lemma one_of_false_parts (c : ascii) :
  one_of "hHmMsS:" c = false ->
  one_of "hH" c = false /\ one_of "mM" c = false /\ one_of "sS" c = false
  /\ is_char ":" c = false.
Proof.
  unfold one_of. cbn [list_ascii_of_string existsb]. intros H.
  repeat (apply orb_false_elim in H as [? H]).
  repeat split;
    repeat (apply orb_false_intro; try assumption; try reflexivity).
  unfold is_char in *. rewrite Ascii.eqb_sym. assumption.
Qed.

(** X5. A text that is no number and does not begin, after any digits,
    with a unit letter or a colon is parsed without complaint to
    [Timestamp(0, 0, 0)]. *)
Theorem parse_time_unrecognized_is_zero (d rest : list ascii) :
  forallb is_digit d = true ->
  head_not is_digit rest = true ->
  head_not (one_of "hHmMsS:") rest = true ->
  float_of_string (string_of_list_ascii (d ++ rest)) = None ->
  parse_time (YStr (string_of_list_ascii (d ++ rest))) = Ok zero_tuple.
Proof.
  intros Hd Hr Hu Hf.
  assert (Hparts : head_not (one_of "hH") rest = true
                   /\ head_not (one_of "mM") rest = true
                   /\ head_not (one_of "sS") rest = true
                   /\ head_not (is_char ":") rest = true).
  { destruct rest as [| c r]; [repeat split |].
    cbn [head_not] in *. apply negb_true_iff in Hu.
    destruct (one_of_false_parts c Hu) as (-> & -> & -> & ->). repeat split. }
  destruct Hparts as (H1 & H2 & H3 & H4).
  apply zero_when_nothing_matches; [exact Hf | |].
  - now apply colon_re_none.
  - now apply letter_re_skips.
Qed.

Lemma parse_time_unrecognized_is_zero_witness :
  parse_time (YStr "5 minutes") = Ok zero_tuple.
Proof.
  apply (parse_time_unrecognized_is_zero
           (list_ascii_of_string "5") (list_ascii_of_string " minutes"));
    reflexivity.
Defined.

(** ** The letter shape *)

Lemma hours_letter l : one_of "hH" l = true -> is_digit l = false.
Proof. intros H. letter_cases H; reflexivity. Qed.

Lemma minutes_letter l :
  one_of "mM" l = true -> is_digit l = false /\ one_of "hH" l = false.
Proof. intros H. letter_cases H; split; reflexivity. Qed.

Lemma seconds_letter l :
  one_of "sS" l = true ->
  is_digit l = false /\ one_of "hH" l = false /\ one_of "mM" l = false.
Proof. intros H. letter_cases H; repeat split; reflexivity. Qed.

(** A component, or nothing, begins with no white space and no comma,
    so the separator before it ends where it begins. *)
Lemma component_head p d l sep rest :
  (forall c, is_digit c = true -> p c = false) ->
  opt_digit_text d -> head_not p rest = true ->
  head_not p (letter_component d l sep ++ rest) = true.
Proof.
  intros Hp Hd Hr. destruct d as [ds |]; [| exact Hr].
  cbn [letter_component]. rewrite <- app_assoc.
  now apply digit_text_head.
Qed.

Lemma seconds_part_reads ds ls seps (g : groups) :
  opt_digit_text ds -> one_of "sS" ls = true -> is_separator seps = true ->
  run (letter_part "seconds" "sS") (letter_component ds ls seps) g
      (fun _ g' => Some g')
  = Some (opt_group "seconds" ds ++ g).
Proof.
  intros Hds Hls Hss. destruct ds as [d |]; [| reflexivity].
  cbn [letter_component opt_group app].
  rewrite <- (app_nil_r seps).
  apply letter_part_take; try assumption; try reflexivity.
  exact (proj1 (seconds_letter _ Hls)).
Qed.

Lemma minutes_part_reads dm ds lm ls sepm seps (g : groups) :
  opt_digit_text dm -> opt_digit_text ds ->
  one_of "mM" lm = true -> one_of "sS" ls = true ->
  is_separator sepm = true -> is_separator seps = true ->
  run (letter_part "minutes" "mM")
      (letter_component dm lm sepm ++ letter_component ds ls seps) g
      (fun s' g' => run (letter_part "seconds" "sS") s' g' (fun _ g'' => Some g''))
  = Some (opt_group "seconds" ds ++ opt_group "minutes" dm ++ g).
Proof.
  intros Hdm Hds Hlm Hls Hsm Hss.
  destruct (seconds_letter _ Hls) as (Ns & _ & Nm).
  destruct dm as [d |].
  - cbn [letter_component opt_group app]. rewrite <- app_assoc. cbn [app].
    apply letter_part_take; try assumption.
    + exact (proj1 (minutes_letter _ Hlm)).
    + rewrite <- (app_nil_r (letter_component ds ls seps)).
      apply component_head; [exact digit_not_space | exact Hds | reflexivity].
    + rewrite <- (app_nil_r (letter_component ds ls seps)).
      apply component_head; [exact digit_not_comma | exact Hds | reflexivity].
    + now apply seconds_part_reads.
  - cbn [letter_component opt_group app].
    rewrite <- (seconds_part_reads ds ls seps g Hds Hls Hss).
    destruct ds as [d |]; [| reflexivity].
    cbn [letter_component].
    apply letter_part_skip;
      [ reflexivity | exact (proj2 Hds) | cbn [head_not]; now rewrite Ns
      | cbn [head_not]; now rewrite Nm ].
Qed.

Lemma hours_part_reads dh dm ds lh lm ls seph sepm seps :
  opt_digit_text dh -> opt_digit_text dm -> opt_digit_text ds ->
  one_of "hH" lh = true -> one_of "mM" lm = true -> one_of "sS" ls = true ->
  is_separator seph = true -> is_separator sepm = true ->
  is_separator seps = true ->
  re_match letter_re
           (letter_component dh lh seph
            ++ letter_component dm lm sepm ++ letter_component ds ls seps)
  = Some (opt_group "seconds" ds ++ opt_group "minutes" dm
          ++ opt_group "hours" dh).
Proof.
  intros Hdh Hdm Hds Hlh Hlm Hls Hsh Hsm Hss.
  unfold re_match, letter_re. rewrite run_seq.
  assert (Hcont : forall s g,
             run (Seq (letter_part "minutes" "mM") (letter_part "seconds" "sS"))
                 s g (fun _ g' => Some g')
             = run (letter_part "minutes" "mM") s g
                   (fun s' g' => run (letter_part "seconds" "sS") s' g'
                                     (fun _ g'' => Some g'')))
    by reflexivity.
  destruct (minutes_letter _ Hlm) as (Nm & Nmh).
  destruct (seconds_letter _ Hls) as (Ns & Nsh & Nsm).
  destruct dh as [d |].
  - cbn [letter_component opt_group]. rewrite <- app_assoc. cbn [app].
    apply letter_part_take; try assumption.
    + exact (hours_letter _ Hlh).
    + apply component_head; [exact digit_not_space | exact Hdm |].
      rewrite <- (app_nil_r (letter_component ds ls seps)).
      apply component_head; [exact digit_not_space | exact Hds | reflexivity].
    + apply component_head; [exact digit_not_comma | exact Hdm |].
      rewrite <- (app_nil_r (letter_component ds ls seps)).
      apply component_head; [exact digit_not_comma | exact Hds | reflexivity].
    + rewrite Hcont. now apply minutes_part_reads.
  - cbn [letter_component opt_group app].
    rewrite <- (minutes_part_reads dm ds lm ls sepm seps [] Hdm Hds Hlm Hls Hsm Hss).
    rewrite <- Hcont.
    destruct dm as [d |].
    + cbn [letter_component]. rewrite <- app_assoc. cbn [app].
      apply letter_part_skip;
        [ reflexivity | exact (proj2 Hdm) | cbn [head_not]; now rewrite Nm
        | cbn [head_not]; now rewrite Nmh ].
    + cbn [letter_component app]. destruct ds as [d |]; [| reflexivity].
      cbn [letter_component].
      apply letter_part_skip;
        [ reflexivity | exact (proj2 Hds) | cbn [head_not]; now rewrite Ns
        | cbn [head_not]; now rewrite Nsh ].
Qed.

(** ** What [load_config] returns *)

Lemma build_section_fields prev k v sec :
  build_section prev k v = Ok sec ->
  exists d,
    v = YDict d
    /\ name sec = k
    /\ match lookup "start" d with
       | Some x => parse_time x = Ok (start sec)
       | None => start sec = prev
       end
    /\ match lookup "end" d with
       | Some y => exists t, parse_time y = Ok t /\ end_ sec = E_Time t
       | None => end_ sec = E_Int (-1)
       end.
Proof.
  destruct v; cbn [build_section isinstance_float_int]; try discriminate.
  intros H. exists items. split; [reflexivity |].
  destruct (lookup "start" items) as [x |], (lookup "end" items) as [y |];
    try destruct (parse_time x) as [tx |];
    try destruct (parse_time y) as [ty |];
    cbn [bind name start end_] in H; try discriminate;
    injection H as <-; cbn [name start end_]; repeat split; eauto.
Qed.

Lemma load_config_fields (items : list (string * YamlValue)) (cfg : Cfg) :
  load_config (YDict items) = Ok cfg ->
  Forall2
    (fun kv sec =>
       exists d,
         snd kv = YDict d
         /\ name sec = fst kv
         /\ match lookup "start" d with
            | Some x => parse_time x = Ok (start sec)
            | None => start sec = zero_tuple
            end
         /\ match lookup "end" d with
            | Some y => exists t, parse_time y = Ok t /\ end_ sec = E_Time t
            | None => end_ sec = E_Int (-1)
            end)
    items cfg.
Proof.
  intros H. apply load_config_sections in H.
  induction H as [| kv sec items cfg Hb _ IH]; constructor; [| exact IH].
  exact (build_section_fields _ _ _ _ Hb).
Qed.

(** X8. A configuration that loads gives one section an entry, in the
    order of the document, each named by its key.  Every value is a
    mapping; the section starts at the parsed [start], or at
    [(0, 0, 0)] when there is none, and ends at the parsed [end], or
    holds the int [-1] when there is none. *)
Theorem load_config_returns (items : list (string * YamlValue)) (cfg : Cfg) :
  load_config (YDict items) = Ok cfg ->
  Forall2
    (fun kv sec =>
       exists d,
         snd kv = YDict d
         /\ name sec = fst kv
         /\ match lookup "start" d with
            | Some x => parse_time x = Ok (start sec)
            | None => start sec = zero_tuple
            end
         /\ match lookup "end" d with
            | Some y => exists t, parse_time y = Ok t /\ end_ sec = E_Time t
            | None => end_ sec = E_Int (-1)
            end)
    items cfg.
Proof. exact (load_config_fields items cfg). Qed.

Lemma load_config_returns_witness :
  Forall2
    (fun kv sec =>
       exists d,
         snd kv = YDict d
         /\ name sec = fst kv
         /\ match lookup "start" d with
            | Some x => parse_time x = Ok (start sec)
            | None => start sec = zero_tuple
            end
         /\ match lookup "end" d with
            | Some y => exists t, parse_time y = Ok t /\ end_ sec = E_Time t
            | None => end_ sec = E_Int (-1)
            end)
    [("A"%string, YDict [("end"%string, YStr "1:00:00")]);
     ("B"%string, YDict [("end"%string, YStr "2:00:00")])]
    [mkSection "A" zero_tuple
       (E_Time (mkTimestamp (PInt 1) (PInt 0) (PFloat 0)));
     mkSection "B" zero_tuple
       (E_Time (mkTimestamp (PInt 2) (PInt 0) (PFloat 0)))].
Proof.
  apply (load_config_returns
           [("A"%string, YDict [("end"%string, YStr "1:00:00")]);
            ("B"%string, YDict [("end"%string, YStr "2:00:00")])]).
  reflexivity.
Defined.

Lemma build_section_loads prev k v :
  entry_loads v -> exists sec, build_section prev k v = Ok sec.
Proof.
  intros (d & -> & Hs & He). cbn [build_section].
  destruct (lookup "start" d) as [x |].
  - destruct (Hs x eq_refl) as (tx & ->). cbn [bind].
    destruct (lookup "end" d) as [y |]; [| eauto].
    destruct (He y eq_refl) as (ty & ->). cbn [bind]. eauto.
  - cbn [bind]. destruct (lookup "end" d) as [y |]; [| eauto].
    destruct (He y eq_refl) as (ty & ->). cbn [bind]. eauto.
Qed.

Lemma load_loop_app prev pre post acc :
  Forall (fun kv => exists sec, build_section prev (fst kv) (snd kv) = Ok sec)
         pre ->
  exists built,
    length built = length pre
    /\ load_loop prev (pre ++ post) acc = load_loop prev post (acc ++ built).
Proof.
  intros H. revert acc.
  induction H as [| [k v] pre (sec & Hb) _ IH]; intros acc.
  - exists []. now rewrite app_nil_r.
  - cbn [app load_loop]. cbn [fst snd] in Hb. rewrite Hb. cbn [bind].
    destruct (IH (acc ++ [sec])) as (built & Hlen & ->).
    exists (sec :: built). split; [cbn [length]; lia |].
    now rewrite <- app_assoc.
Qed.

(** X9. [load_config] succeeds exactly on a mapping all of whose values
    are mappings with a [start] and an [end] that parse where they are
    given.  Anything else at the top (an empty file is [None]) or in a
    value makes it raise. *)
Theorem load_config_succeeds_iff (cfg : YamlValue) :
  (exists secs, load_config cfg = Ok secs)
  <-> exists items,
        cfg = YDict items /\ Forall (fun kv => entry_loads (snd kv)) items.
Proof.
  split.
  - intros (secs & H). destruct cfg; try discriminate H.
    exists items. split; [reflexivity |].
    apply load_config_fields in H.
    induction H as [| kv sec items secs (d & Hv & _ & Hs & He) _ IH];
      constructor; [| exact IH].
    exists d. split; [exact Hv |]. split.
    + intros x Hx. rewrite Hx in Hs. eauto.
    + intros y Hy. rewrite Hy in He. destruct He as (t & Ht & _). eauto.
  - intros (items & -> & H). cbn [load_config].
    assert (Hb : Forall (fun kv => exists sec,
                             build_section zero_tuple (fst kv) (snd kv) = Ok sec)
                        items).
    { eapply Forall_impl; [| exact H]. intros [k v] Hv.
      now apply build_section_loads. }
    destruct (load_loop_app zero_tuple items [] [] Hb) as (built & _ & E).
    rewrite app_nil_r in E. rewrite E. cbn [load_loop]. eauto.
Qed.

(** X10. The first entry that does not load decides the error: when
    all entries before it load and the loop body raises on it,
    [load_config] raises that error, whatever comes after. *)
Theorem load_config_first_error
        (pre post : list (string * YamlValue)) (k : string) (v : YamlValue)
        (e : PyError) :
  Forall (fun kv => entry_loads (snd kv)) pre ->
  build_section zero_tuple k v = Raise e ->
  load_config (YDict (pre ++ (k, v) :: post)) = Raise e.
Proof.
  intros Hpre Hv. cbn [load_config].
  assert (Hb : Forall (fun kv => exists sec,
                           build_section zero_tuple (fst kv) (snd kv) = Ok sec)
                      pre).
  { eapply Forall_impl; [| exact Hpre]. intros [k' v'] H.
    now apply build_section_loads. }
  destruct (load_loop_app zero_tuple pre ((k, v) :: post) [] Hb)
    as (built & _ & ->).
  cbn [load_loop]. now rewrite Hv.
Qed.

Lemma load_config_first_error_witness :
  load_config
    (YDict ([("A"%string, YDict [("end"%string, YStr "1:00:00")])]
              ++ ("B"%string, YStr "soon") :: [("C"%string, YInt 5)]))
  = Raise invalid_section_config.
Proof.
  apply load_config_first_error; [| reflexivity].
  constructor; [| constructor].
  exists [("end"%string, YStr "1:00:00")]. split; [reflexivity |]. split.
  - intros x H. discriminate H.
  - intros y [= <-]. eexists. reflexivity.
Defined.

(** ** [split_file] *)



(** ** Tabs in the configuration text *)

Lemma untabbed_cons (c : ascii) (s : list ascii) :
  untabbed (c :: s)
  = if Ascii.eqb tab c then [space; space; space; space] ++ untabbed s
    else c :: untabbed s.
Proof.
  unfold untabbed, Str.replace. cbn [Str.replace_from Str.starts_with length].
  rewrite andb_true_r. reflexivity.
Qed.

(** X14. Replacing the tabs turns each tab into four spaces and leaves
    every other character where it is: no tab is left, the text grows
    by three characters a tab, and a second pass changes nothing. *)
Theorem untabbed_has_no_tab :
  (forall s,
      untabbed s
      = flat_map (fun c => if Ascii.eqb tab c
                           then [space; space; space; space] else [c]) s)
  /\ (forall s, ~ In tab (untabbed s))
  /\ (forall s,
         length (untabbed s) = (length s + 3 * count_occ ascii_dec s tab)%nat)
  /\ (forall s, untabbed (untabbed s) = untabbed s).
Proof.
  assert (Hflat : forall s,
             untabbed s
             = flat_map (fun c => if Ascii.eqb tab c
                                  then [space; space; space; space] else [c]) s).
  { induction s as [| c s IH]; [reflexivity |].
    rewrite untabbed_cons. cbn [flat_map]. rewrite IH.
    destruct (Ascii.eqb tab c); reflexivity. }
  assert (Hno : forall s, ~ In tab (untabbed s)).
  { induction s as [| c s IH]; [intros [] |].
    rewrite untabbed_cons. destruct (Ascii.eqb_spec tab c) as [E | N].
    - cbn [app In]. intros [F | [F | [F | [F | F]]]];
        try discriminate F. exact (IH F).
    - intros [F | F]; [exact (N (eq_sym F)) | exact (IH F)]. }
  assert (Hid : forall s, ~ In tab s -> untabbed s = s).
  { induction s as [| c s IH]; [reflexivity |].
    intros H. rewrite untabbed_cons.
    destruct (Ascii.eqb_spec tab c) as [E | N].
    - exfalso. apply H. left. exact (eq_sym E).
    - f_equal. apply IH. intros F. apply H. right. exact F. }
  split; [exact Hflat |]. split; [exact Hno |]. split.
  - induction s as [| c s IH]; [reflexivity |].
    rewrite untabbed_cons. cbn [count_occ].
    destruct (ascii_dec c tab) as [-> | N].
    + rewrite Ascii.eqb_refl. cbn [app length]. rewrite IH. lia.
    + destruct (Ascii.eqb_spec tab c) as [E | _]; [congruence |].
      cbn [length]. rewrite IH. lia.
  - intros s. apply Hid, Hno.
Qed.

(** ** The path typed at a prompt *)

Lemma lstrip_length (s : list ascii) : (length (Str.lstrip s) <= length s)%nat.
Proof.
  induction s as [| c s IH]; cbn [Str.lstrip]; [lia |].
  destruct (is_space c); cbn [length]; lia.
Qed.

Lemma lstrip_same_length (s : list ascii) :
  length (Str.lstrip s) = length s -> Str.lstrip s = s.
Proof.
  destruct s as [| c s]; cbn [Str.lstrip]; [reflexivity |].
  destruct (is_space c); [| reflexivity].
  pose proof (lstrip_length s). cbn [length]. lia.
Qed.

Lemma lstrip_fixed_head (c : ascii) (s : list ascii) :
  Str.lstrip (c :: s) = c :: s -> is_space c = false.
Proof.
  cbn [Str.lstrip]. destruct (is_space c); [| reflexivity].
  intros H. apply (f_equal (@length _)) in H.
  pose proof (lstrip_length s). cbn [length] in H. lia.
Qed.

(** A text that [strip()] leaves alone has nothing to strip at either
    end. *)
Lemma strip_fixed (s : list ascii) :
  Str.strip s = s -> Str.lstrip s = s /\ Str.lstrip (rev s) = rev s.
Proof.
  unfold Str.strip. intros H.
  assert (L : Str.lstrip s = s).
  { apply lstrip_same_length.
    pose proof (f_equal (@length _) H) as HL. rewrite length_rev in HL.
    pose proof (lstrip_length (rev (Str.lstrip s))) as L1.
    rewrite length_rev in L1. pose proof (lstrip_length s). lia. }
  split; [exact L |].
  rewrite L in H. rewrite <- H at 2. now rewrite rev_involutive.
Qed.

Lemma rev_flat_map {A B} (f : A -> list B) (l : list A) :
  rev (flat_map f l) = flat_map (fun x => rev (f x)) (rev l).
Proof.
  induction l as [| a l IH]; [reflexivity |].
  cbn [flat_map rev]. rewrite rev_app_distr, IH, flat_map_app.
  cbn [flat_map]. now rewrite app_nil_r.
Qed.

Lemma not_space_char (c : ascii) : is_space c = false -> Ascii.eqb c space = false.
Proof.
  intros H. destruct (Ascii.eqb_spec c space) as [-> |]; [discriminate H | reflexivity].
Qed.

Lemma strip_shell_escaped (path : list ascii) :
  Str.strip path = path -> Str.strip (shell_escaped path) = shell_escaped path.
Proof.
  intros H. apply strip_fixed in H as [L R]. unfold Str.strip.
  assert (L' : Str.lstrip (shell_escaped path) = shell_escaped path).
  { destruct path as [| c p]; [reflexivity |].
    pose proof (lstrip_fixed_head _ _ L) as Hc.
    unfold shell_escaped. cbn [flat_map].
    rewrite (not_space_char _ Hc). cbn [app Str.lstrip]. now rewrite Hc. }
  rewrite L'.
  assert (R' : Str.lstrip (rev (shell_escaped path)) = rev (shell_escaped path)).
  { unfold shell_escaped. rewrite rev_flat_map.
    destruct (rev path) as [| c q]; [reflexivity |].
    pose proof (lstrip_fixed_head _ _ R) as Hc.
    cbn [flat_map]. rewrite (not_space_char _ Hc).
    cbn [rev app Str.lstrip]. now rewrite Hc. }
  rewrite R'. apply rev_involutive.
Qed.

Lemma shell_escaped_head (path : list ascii) :
  match shell_escaped path with
  | c :: _ => Ascii.eqb space c = false
  | [] => True
  end.
Proof.
  destruct path as [| c p]; [exact I |].
  unfold shell_escaped. cbn [flat_map].
  destruct (Ascii.eqb_spec c space) as [-> | N]; cbn [app]; [reflexivity |].
  destruct (Ascii.eqb_spec space c) as [E | _]; [congruence | reflexivity].
Qed.

Lemma replace_shell_escaped (path : list ascii) :
  Str.replace [backslash; space] [space] (shell_escaped path) = path.
Proof.
  unfold Str.replace. induction path as [| c p IH]; [reflexivity |].
  unfold shell_escaped. cbn [flat_map].
  fold (shell_escaped p).
  destruct (Ascii.eqb_spec c space) as [-> | N].
  - cbn [app Str.replace_from Str.starts_with length Nat.sub].
    rewrite !Ascii.eqb_refl. cbn [andb app].
    now rewrite IH.
  - cbn [app Str.replace_from Str.starts_with].
    pose proof (shell_escaped_head p) as Hh.
    destruct (shell_escaped p) as [| d r] eqn:E.
    + rewrite andb_false_r. f_equal. rewrite <- IH. reflexivity.
    + rewrite Hh, andb_false_r. f_equal. exact IH.
Qed.

(** X15. Dragging a file into the prompt and reading it back gives the
    file's path: when the typed text is a path with a backslash put
    before each of its spaces, and the path has no white space at its
    ends, the path made of it is that path. *)
Theorem dragged_path_unescapes (path : list ascii) :
  Str.strip path = path ->
  dragged_path (shell_escaped path) = path.
Proof.
  intros H. unfold dragged_path.
  rewrite (strip_shell_escaped _ H). apply replace_shell_escaped.
Qed.

Lemma dragged_path_unescapes_witness :
  dragged_path (list_ascii_of_string "my\ video\ 1.mp4")
  = list_ascii_of_string "my video 1.mp4".
Proof.
  apply (dragged_path_unescapes (list_ascii_of_string "my video 1.mp4")).
  reflexivity.
Defined.

(** * Further properties, in Python's arithmetic *)

(** ** [parse_time] as CPython computes it *)

(** X2. What [parse_time] can raise, in Python's arithmetic.  It fails
    in four ways only: with the [TypeError] of [float()] on [None], a
    list or a mapping; with [OverflowError], when an int is too large
    for the float it has to become; with the [ValueError] of [int()]
    on a not-a-number, in the minutes branch; and with the
    [ValueError] of [int()] on more than 4300 digits, for a text that
    is no number.  The [assert] on the letter pattern never fails. *)
Theorem parse_time_raises_four_ways (v : YamlValue) (e : PyError) :
  B64.parse_time v = Raise e ->
  (e = TypeError "float() argument must be a string or a real number"
   /\ B64.float_ v = Raise e)
  \/ e = OverflowError
  \/ (e = ValueError "cannot convert float NaN to integer"
      /\ exists x, B64.float_ v = Ok x)
  \/ (e = B64.digit_limit
      /\ exists text, v = YStr text /\ B64.float_of_string text = None).
Proof. exact (b64_parse_time_raises v e). Qed.

Lemma parse_time_raises_four_ways_witness :
  (OverflowError = TypeError "float() argument must be a string or a real number"
   /\ B64.float_ (YInt (10 ^ 400)) = Raise OverflowError)
  \/ OverflowError = OverflowError
  \/ (OverflowError = ValueError "cannot convert float NaN to integer"
      /\ exists x, B64.float_ (YInt (10 ^ 400)) = Ok x)
  \/ (OverflowError = B64.digit_limit
      /\ exists text,
           YInt (10 ^ 400) = YStr text /\ B64.float_of_string text = None).
Proof.
  apply (parse_time_raises_four_ways (YInt (10 ^ 400))).
  vm_compute. reflexivity.
Defined.

(** ** Short runs of digits *)

Lemma digits_val_bound (ds : list ascii) :
  forallb is_digit ds = true ->
  digits_val ds < 10 ^ Z.of_nat (length ds).
Proof.
  unfold digits_val.
  assert (G : forall acc, 0 <= acc -> forallb is_digit ds = true ->
                fold_left (fun a c => 10 * a + digit_val c) ds acc
                < (acc + 1) * 10 ^ Z.of_nat (length ds)).
  { induction ds as [| c ds IH]; cbn [fold_left forallb length];
      intros acc Hacc H; [cbn; lia |].
    apply andb_prop in H as [Hc Hds]. apply digit_val_range in Hc.
    specialize (IH (10 * acc + digit_val c) ltac:(lia) Hds).
    rewrite Nat2Z.inj_succ, Z.pow_succ_r by lia.
    assert (0 < 10 ^ Z.of_nat (length ds)) by (apply Z.pow_pos_nonneg; lia).
    nia. }
  intros H. specialize (G 0 ltac:(lia) H). lia.
Qed.

Lemma short_digits_val (ds : list ascii) :
  short_digits ds -> 0 <= digits_val ds < 10 ^ 15.
Proof.
  intros [Hds Hlen]. split; [apply digits_val_nonneg, Hds |].
  pose proof (digits_val_bound ds (proj2 Hds)) as H.
  assert (10 ^ Z.of_nat (length ds) <= 10 ^ 15)
    by (apply Z.pow_le_mono_r; lia).
  lia.
Qed.

Lemma opt_short_digits_val (d : option (list ascii)) :
  opt_short_digits d -> 0 <= opt_digits_val d < 10 ^ 15.
Proof.
  destruct d as [ds |]; cbn [opt_short_digits opt_digits_val];
    [apply short_digits_val | lia].
Qed.

Lemma opt_short_digit_text (d : option (list ascii)) :
  opt_short_digits d -> opt_digit_text d.
Proof. destruct d as [ds |]; [intros [H _]; exact H | trivial]. Qed.

Lemma b64_int_of_short (ds : list ascii) :
  short_digits ds -> B64.int_of_digits ds = Ok (digits_val ds).
Proof.
  intros [Hds Hlen]. apply b64_int_of_digits_short; [exact Hds | lia].
Qed.

Lemma b64_float_of_short (ds : list ascii) :
  short_digits ds ->
  B64.float_of_digits ds = Ok (B64.Float (whole_float (digits_val ds))).
Proof.
  intros Hs. pose proof (short_digits_val ds Hs).
  apply b64_float_of_digits_small; [exact (proj1 Hs) | lia].
Qed.

(** The raw components of short runs are carried without loss. *)
Lemma b64_normalize_short (h m : Z) (s : B64.num) (sz : Z) :
  0 <= h < 10 ^ 15 -> 0 <= m < 10 ^ 15 -> 0 <= sz < 10 ^ 15 ->
  whole s sz ->
  exists ts,
    B64.normalize (B64.Int h, B64.Int m, s) = Ok ts
    /\ reads_carried ts h m sz.
Proof.
  intros Hh Hm Hs Hw. apply normalize_whole; try (now left); try assumption; lia.
Qed.

(** ** The colon shape *)

Lemma b64_colon_shape_parses
      (dh : option (list ascii)) (dm ds tail : list ascii) :
  opt_short_digits dh -> short_digits dm -> short_digits ds ->
  head_not is_digit tail = true ->
  exists ts,
    B64.parse_time
      (YStr (string_of_list_ascii
               (opt_text dh ++ ":"%char :: dm ++ ":"%char :: ds ++ tail)))
    = Ok ts
    /\ reads_carried ts (opt_digits_val dh) (digits_val dm) (digits_val ds).
Proof.
  intros Hh Hm Hs Ht.
  rewrite b64_parse_time_of_text
    by (apply b64_float_none, float_none_after_digits;
        [apply opt_text_digits, opt_short_digit_text; exact Hh | reflexivity]).
  unfold B64.raw_components. rewrite list_ascii_of_string_of_list_ascii.
  rewrite (colon_re_reads dh dm ds tail
             (opt_short_digit_text dh Hh) (proj1 Hm) (proj1 Hs) Ht).
  pose proof (opt_short_digits_val dh Hh) as Bh.
  pose proof (short_digits_val dm Hm) as Bm.
  pose proof (short_digits_val ds Hs) as Bs.
  unfold B64.int_or_zero.
  destruct dh as [d |];
    cbn [get set String.eqb Ascii.eqb Bool.eqb opt_digits_val opt_short_digits]
      in *;
    [rewrite (b64_int_of_short _ Hh) |];
    rewrite (b64_int_of_short _ Hm), (b64_float_of_short _ Hs); cbn [bind];
    (apply b64_normalize_short; [assumption .. | now right]).
Qed.

(** X3. The colon shape with both colons written, each component a
    run of at most fifteen digits and the hours possibly left out
    before the first colon.  [parse_time] returns the carry of the
    three numbers written: [h + (m + s // 60) // 60] hours,
    [(m + s // 60) % 60] minutes and [s % 60] seconds, each as an int
    or as the float equal to it.  Whatever follows the seconds'
    digits is not looked at. *)
Theorem colon_shape_of_short_runs
        (dh : option (list ascii)) (dm ds tail : list ascii) :
  opt_short_digits dh -> short_digits dm -> short_digits ds ->
  head_not is_digit tail = true ->
  exists ts,
    B64.parse_time
      (YStr (string_of_list_ascii
               (opt_text dh ++ ":"%char :: dm ++ ":"%char :: ds ++ tail)))
    = Ok ts
    /\ reads_carried ts (opt_digits_val dh) (digits_val dm) (digits_val ds).
Proof. exact (b64_colon_shape_parses dh dm ds tail). Qed.

Lemma colon_shape_of_short_runs_witness :
  exists ts,
    B64.parse_time (YStr "1:99:99 pm") = Ok ts
    /\ reads_carried ts 1 99 99.
Proof.
  apply (colon_shape_of_short_runs
           (Some (list_ascii_of_string "1")) (list_ascii_of_string "99")
           (list_ascii_of_string "99") (list_ascii_of_string " pm"));
    repeat split; (discriminate || (cbn; lia)).
Defined.

(** ** The letter shape *)

(** A text of the letter shape is no number for [float()] and no match
    for [colon_re]. *)
Lemma letter_text_takes_letter_re
      (dh dm ds : option (list ascii)) (lh lm ls : ascii)
      (seph sepm seps : list ascii) :
  opt_digit_text dh -> opt_digit_text dm -> opt_digit_text ds ->
  one_of "hH" lh = true -> one_of "mM" lm = true -> one_of "sS" ls = true ->
  float_of_string
    (string_of_list_ascii
       (letter_component dh lh seph
        ++ letter_component dm lm sepm ++ letter_component ds ls seps))
  = None
  /\ re_match colon_re
       (letter_component dh lh seph
        ++ letter_component dm lm sepm ++ letter_component ds ls seps)
     = None.
Proof.
  intros Hdh Hdm Hds Hlh Hlm Hls.
  set (text := letter_component dh lh seph
               ++ letter_component dm lm sepm ++ letter_component ds ls seps).
  assert (Hshape : text = []
                   \/ exists d l R,
                        text = d ++ l :: R /\ forallb is_digit d = true
                        /\ one_of "hHmMsS:" l = true
                        /\ is_digit l = false /\ is_char ":" l = false).
  { subst text.
    destruct dh as [d |]; [right; exists d, lh, (seph ++ letter_component dm lm sepm ++ letter_component ds ls seps) |].
    { cbn [letter_component]. rewrite <- app_assoc.
      split; [reflexivity |]. split; [exact (proj2 Hdh) |].
      letter_cases Hlh; repeat split. }
    destruct dm as [d |]; [right; exists d, lm, (sepm ++ letter_component ds ls seps) |].
    { cbn [letter_component app]. rewrite <- app_assoc.
      split; [reflexivity |]. split; [exact (proj2 Hdm) |].
      letter_cases Hlm; repeat split. }
    destruct ds as [d |]; [right; exists d, ls, seps | now left].
    cbn [letter_component app].
    split; [reflexivity |]. split; [exact (proj2 Hds) |].
    letter_cases Hls; repeat split. }
  split.
  - destruct Hshape as [-> | (d & l & R & -> & Hd & Hl & _)];
      [reflexivity | now apply float_none_after_digits].
  - destruct Hshape as [-> | (d & l & R & -> & Hd & _ & Hnd & Hnc)];
      [reflexivity |].
    apply colon_re_none; [exact Hd | |]; cbn [head_not];
      [now rewrite Hnd | now rewrite Hnc].
Qed.

Lemma b64_letter_shape_parses
      (dh dm ds : option (list ascii)) (lh lm ls : ascii)
      (seph sepm seps : list ascii) :
  opt_short_digits dh -> opt_short_digits dm -> opt_short_digits ds ->
  one_of "hH" lh = true -> one_of "mM" lm = true -> one_of "sS" ls = true ->
  is_separator seph = true -> is_separator sepm = true ->
  is_separator seps = true ->
  exists ts,
    B64.parse_time
      (YStr (string_of_list_ascii
               (letter_component dh lh seph
                ++ letter_component dm lm sepm ++ letter_component ds ls seps)))
    = Ok ts
    /\ reads_carried ts (opt_digits_val dh) (opt_digits_val dm)
                     (opt_digits_val ds).
Proof.
  intros Hdh Hdm Hds Hlh Hlm Hls Hsh Hsm Hss.
  pose proof (opt_short_digit_text _ Hdh) as Tdh.
  pose proof (opt_short_digit_text _ Hdm) as Tdm.
  pose proof (opt_short_digit_text _ Hds) as Tds.
  destruct (letter_text_takes_letter_re dh dm ds lh lm ls seph sepm seps
              Tdh Tdm Tds Hlh Hlm Hls) as [Hf Hc].
  rewrite (b64_parse_time_of_text _ (proj2 (b64_float_none _) Hf)).
  unfold B64.raw_components. rewrite list_ascii_of_string_of_list_ascii, Hc.
  rewrite (hours_part_reads dh dm ds lh lm ls seph sepm seps
             Tdh Tdm Tds Hlh Hlm Hls Hsh Hsm Hss).
  pose proof (opt_short_digits_val dh Hdh) as Bh.
  pose proof (opt_short_digits_val dm Hdm) as Bm.
  pose proof (opt_short_digits_val ds Hds) as Bs.
  unfold B64.int_or_zero.
  destruct dh as [d1 |], dm as [d2 |], ds as [d3 |];
    cbn [opt_group app get String.eqb Ascii.eqb Bool.eqb opt_digits_val
         opt_short_digits] in *;
    repeat match goal with
           | H : short_digits ?d |- _ =>
               try rewrite (b64_int_of_short _ H);
               try rewrite (b64_float_of_short _ H);
               clear H
           end;
    cbn [bind];
    (apply b64_normalize_short; [assumption .. | (now right) || (now left)]).
Qed.

(** X7. The letter shape means what it says, for runs of at most
    fifteen digits.  For hours, minutes and seconds written as digits
    and a unit letter of either case, each followed by an optional
    comma and white space, and each of the three present or not,
    [parse_time] returns the carry of the numbers written, with zero
    for a component that is left out. *)
Theorem letter_shape_of_short_runs
        (dh dm ds : option (list ascii)) (lh lm ls : ascii)
        (seph sepm seps : list ascii) :
  opt_short_digits dh -> opt_short_digits dm -> opt_short_digits ds ->
  one_of "hH" lh = true -> one_of "mM" lm = true -> one_of "sS" ls = true ->
  is_separator seph = true -> is_separator sepm = true ->
  is_separator seps = true ->
  exists ts,
    B64.parse_time
      (YStr (string_of_list_ascii
               (letter_component dh lh seph
                ++ letter_component dm lm sepm ++ letter_component ds ls seps)))
    = Ok ts
    /\ reads_carried ts (opt_digits_val dh) (opt_digits_val dm)
                     (opt_digits_val ds).
Proof. exact (b64_letter_shape_parses dh dm ds lh lm ls seph sepm seps). Qed.

Lemma letter_shape_of_short_runs_witness :
  exists ts,
    B64.parse_time (YStr "1H, 90m") = Ok ts
    /\ reads_carried ts 1 90 0.
Proof.
  apply (letter_shape_of_short_runs
           (Some (list_ascii_of_string "1")) (Some (list_ascii_of_string "90"))
           None "H" "m" "s"
           (list_ascii_of_string ", ") [] []);
    repeat split; (discriminate || (cbn; lia)).
Defined.

(** ** What [load_config] returns *)

Lemma b64_build_section_fields prev k v sec :
  B64.build_section prev k v = Ok sec ->
  exists d,
    v = YDict d
    /\ B64.name sec = k
    /\ match lookup "start" d with
       | Some x => B64.parse_time x = Ok (B64.start sec)
       | None => B64.start sec = prev
       end
    /\ match lookup "end" d with
       | Some y =>
           exists t, B64.parse_time y = Ok t /\ B64.end_ sec = B64.E_Time t
       | None => B64.end_ sec = B64.E_Int (-1)
       end.
Proof.
  destruct v; cbn [B64.build_section isinstance_float_int]; try discriminate.
  intros H. exists items. split; [reflexivity |].
  destruct (lookup "start" items) as [x |], (lookup "end" items) as [y |];
    try destruct (B64.parse_time x) as [tx |];
    try destruct (B64.parse_time y) as [ty |];
    cbn [bind B64.name B64.start B64.end_] in H; try discriminate;
    injection H as <-; cbn [B64.name B64.start B64.end_]; repeat split; eauto.
Qed.

Lemma b64_load_loop_sections prev items acc secs :
  B64.load_loop prev items acc = Ok secs ->
  exists built,
    secs = acc ++ built
    /\ Forall2 (fun kv sec => B64.build_section prev (fst kv) (snd kv) = Ok sec)
               items built.
Proof.
  revert acc. induction items as [| [k v] items IH]; intros acc;
    cbn [B64.load_loop].
  - intros [= <-]. exists []. split; [now rewrite app_nil_r | constructor].
  - destruct (B64.build_section prev k v) as [sec |] eqn:E; cbn [bind];
      [| discriminate].
    intros H. destruct (IH _ H) as (built & -> & HF).
    exists (sec :: built). split; [now rewrite <- app_assoc |].
    constructor; assumption.
Qed.

(** Every loaded section ends at a timestamp or holds the int [-1],
    the latter when its entry gives no [end]. *)
Lemma b64_loaded_ends (items : list (string * YamlValue)) (cfg : B64.Cfg) :
  B64.load_config (YDict items) = Ok cfg ->
  Forall2
    (fun kv sec =>
       exists d,
         snd kv = YDict d
         /\ match lookup "end" d with
            | Some y => exists t, B64.end_ sec = B64.E_Time t
            | None => B64.end_ sec = B64.E_Int (-1)
            end)
    items cfg.
Proof.
  intros H. apply b64_load_loop_sections in H as (built & -> & HF).
  cbn [app]. induction HF as [| kv sec items built Hb _ IH];
    constructor; [| exact IH].
  apply b64_build_section_fields in Hb as (d & Hv & _ & _ & He).
  exists d. split; [exact Hv |].
  destruct (lookup "end" d); [| exact He].
  destruct He as (t & _ & Ht). eauto.
Qed.

(** ** [extract_section] and [split_file] *)

Lemma b64_extract_args_of_int file out_dir (sec : B64.Section) (z : Z) :
  B64.end_ sec = B64.E_Int z ->
  B64.extract_args file out_dir sec
  = Raise (TypeError "'int' object is not subscriptable").
Proof.
  intros H. unfold B64.extract_args, B64.duration_flag, B64.duration.
  now rewrite H.
Qed.

Lemma b64_extract_args_timed file out_dir (sec : B64.Section)
      (e : B64.Timestamp) (args : list B64.Arg) :
  B64.end_ sec = B64.E_Time e ->
  B64.extract_args file out_dir sec = Ok args ->
  exists begin d,
    B64.start_seconds sec = Ok begin
    /\ B64.duration sec = Ok (Some d)
    /\ args = timed_run file out_dir (B64.name sec) begin d.
Proof.
  intros He. unfold B64.extract_args, B64.duration_flag. rewrite He.
  destruct (B64.duration sec) as [[d |] |] eqn:Ed; cbn [bind B64.str_opt];
    try discriminate.
  - destruct (B64.str_num d) as [text |] eqn:Et; cbn [bind]; [| discriminate].
    destruct (B64.start_seconds sec) as [begin |]; cbn [bind]; [| discriminate].
    destruct (B64.str_num begin) as [seek |] eqn:Es; cbn [bind];
      [| discriminate].
    intros [= <-]. exists begin, d. repeat split.
    assert (Hstr : forall x a, B64.str_num x = Ok a -> a = B64.StrNum x).
    { intros [z | f] a; cbn [B64.str_num];
        [destruct (_ <? _); [| discriminate] |]; now intros [= <-]. }
    now rewrite (Hstr _ _ Et), (Hstr _ _ Es).
  - exfalso. unfold B64.duration in Ed. rewrite He in Ed.
    destruct (B64.seconds_of e); cbn [bind] in Ed; [| discriminate].
    destruct (B64.start_seconds sec); cbn [bind] in Ed; [| discriminate].
    destruct (B64.sub _ _); discriminate.
Qed.

Lemma b64_extract_section_returns {W : Type} (fx : B64.Effects W)
      file out_dir (sec : B64.Section) (w w' : W) :
  B64.extract_section fx file out_dir sec w = Ok w' ->
  exists w1 args,
    B64.mkdir fx out_dir w = Ok w1
    /\ B64.extract_args file out_dir sec = Ok args
    /\ B64.check_call fx args w1 = Ok w'.
Proof.
  unfold B64.extract_section.
  destruct (B64.mkdir fx out_dir w) as [w1 |]; cbn [bind]; [| discriminate].
  destruct (B64.extract_args file out_dir sec) as [args |]; cbn [bind];
    [| discriminate].
  intros H. now exists w1, args.
Qed.

Lemma b64_split_file_returns {W : Type} (fx : B64.Effects W)
      file out_dir (cfg : B64.Cfg) (w w' : W) :
  B64.split_file fx file out_dir cfg w = Ok w' ->
  Forall (fun sec => exists args, B64.extract_args file out_dir sec = Ok args)
         cfg.
Proof.
  revert w. induction cfg as [| sec cfg IH]; intros w H; constructor.
  - cbn [B64.split_file] in H.
    destruct (B64.extract_section fx file out_dir sec w) as [w1 |] eqn:E;
      [| discriminate].
    apply b64_extract_section_returns in E as (_ & args & _ & Ha & _).
    now exists args.
  - cbn [B64.split_file] in H.
    destruct (B64.extract_section fx file out_dir sec w) as [w1 |];
      cbn [bind] in H; [| discriminate].
    exact (IH _ H).
Qed.

(** X12. A loaded configuration with an entry that gives no [end]
    cannot be split.  Whatever the surroundings do, [split_file]
    raises: for that entry [extract_section] cannot build its vector,
    since [duration] indexes the int [-1]. *)
Theorem split_file_stops_without_end
        {W : Type} (fx : B64.Effects W)
        (items : list (string * YamlValue)) (cfg : B64.Cfg) (k : string)
        (d : list (string * YamlValue)) (file out_dir : Path) (w : W) :
  B64.load_config (YDict items) = Ok cfg ->
  In (k, YDict d) items -> lookup "end" d = None ->
  exists e, B64.split_file fx file out_dir cfg w = Raise e.
Proof.
  intros Hload Hin Hend.
  destruct (B64.split_file fx file out_dir cfg w) as [w' |] eqn:E;
    [exfalso | eauto].
  apply b64_split_file_returns in E. apply b64_loaded_ends in Hload.
  induction Hload as [| kv sec items cfg (d' & Hv & He) _ IH];
    [contradiction |].
  inversion E as [| ? ? (args & Ha) Hrest]; subst.
  destruct Hin as [-> | Hin]; [| exact (IH Hin Hrest)].
  cbn [snd] in Hv. injection Hv as <-. rewrite Hend in He.
  rewrite (b64_extract_args_of_int _ _ _ _ He) in Ha. discriminate.
Qed.

Lemma split_file_stops_without_end_witness :
  exists e,
    B64.split_file recording (mkPath "talk.mp4" ".mp4") (mkPath "out" "")
      [B64.mkSection "A"
         (B64.mkTimestamp (B64.Int 0) (B64.Int 0) (B64.Float (F_fin 10)))
         (B64.E_Int (-1))]
      []
    = Raise e.
Proof.
  apply (split_file_stops_without_end
           recording
           [("A"%string, YDict [("start"%string, YStr "0:00:10")])]
           _ "A" [("start"%string, YStr "0:00:10")]).
  - reflexivity.
  - left. reflexivity.
  - reflexivity.
Defined.

Lemma b64_recorded_runs file out_dir (cfg : B64.Cfg)
      (before runs : list (list B64.Arg)) :
  B64.split_file recording file out_dir cfg before = Ok runs ->
  exists new,
    runs = before ++ new
    /\ Forall2 (fun sec args => B64.extract_args file out_dir sec = Ok args)
               cfg new.
Proof.
  revert before. induction cfg as [| sec cfg IH]; intros before;
    cbn [B64.split_file].
  - intros [= <-]. exists []. split; [now rewrite app_nil_r | constructor].
  - unfold B64.extract_section. cbn [recording B64.mkdir B64.check_call bind].
    destruct (B64.extract_args file out_dir sec) as [args |] eqn:Ea;
      cbn [bind]; [| discriminate].
    intros H. destruct (IH _ H) as (new & -> & HF).
    exists (args :: new). split; [now rewrite <- app_assoc |].
    constructor; assumption.
Qed.

(** X13. The runs of [ffmpeg] for a loaded configuration, when the
    directory can be made and every run exits with zero.  If
    [split_file] returns, it has made one run a section, in order:
    stream copy from the input, [-ss] at the section's start in
    seconds and [-t] with its duration, into the section's file; and
    every section ends at a timestamp. *)
Theorem split_file_runs_of_loaded
        (items : list (string * YamlValue)) (cfg : B64.Cfg)
        (file out_dir : Path) (runs : list (list B64.Arg)) :
  B64.load_config (YDict items) = Ok cfg ->
  B64.split_file recording file out_dir cfg [] = Ok runs ->
  Forall2
    (fun sec args =>
       exists e begin d,
         B64.end_ sec = B64.E_Time e
         /\ B64.start_seconds sec = Ok begin
         /\ B64.duration sec = Ok (Some d)
         /\ args = timed_run file out_dir (B64.name sec) begin d)
    cfg runs.
Proof.
  intros Hload Hsplit.
  apply b64_recorded_runs in Hsplit as (new & -> & HF). cbn [app].
  apply b64_loaded_ends in Hload.
  revert items Hload. induction HF as [| sec args cfg new Ha _ IH];
    intros items Hload; [constructor |].
  inversion Hload as [| kv ? items' ? (d & _ & He) Hrest]; subst.
  constructor; [| exact (IH _ Hrest)].
  destruct (lookup "end" d).
  - destruct He as (t & Ht).
    destruct (b64_extract_args_timed _ _ _ _ _ Ht Ha) as (begin & dd & ? & ? & ?).
    now exists t, begin, dd.
  - rewrite (b64_extract_args_of_int _ _ _ _ He) in Ha. discriminate.
Qed.

Lemma split_file_runs_of_loaded_witness :
  Forall2
    (fun sec args =>
       exists e begin d,
         B64.end_ sec = B64.E_Time e
         /\ B64.start_seconds sec = Ok begin
         /\ B64.duration sec = Ok (Some d)
         /\ args = timed_run (mkPath "talk.mp4" ".mp4") (mkPath "out" "")
                             (B64.name sec) begin d)
    [B64.mkSection "A" B64.zero_tuple
       (B64.E_Time (B64.mkTimestamp (B64.Int 1) (B64.Int 0)
                                    (B64.Float (F_fin 0))));
     B64.mkSection "B" B64.zero_tuple
       (B64.E_Time (B64.mkTimestamp (B64.Int 2) (B64.Int 0)
                                    (B64.Float (F_fin 0))))]
    [timed_run (mkPath "talk.mp4" ".mp4") (mkPath "out" "") "A"
               (B64.Int 0) (B64.Float (F_fin 3600));
     timed_run (mkPath "talk.mp4" ".mp4") (mkPath "out" "") "B"
               (B64.Int 0) (B64.Float (F_fin 7200))].
Proof.
  apply (split_file_runs_of_loaded
           [("A"%string, YDict [("end"%string, YStr "1:00:00")]);
            ("B"%string, YDict [("end"%string, YStr "2:00:00")])]).
  - reflexivity.
  - reflexivity.
Defined.

(** ** From the document to the [ffmpeg] vector *)







(** X17. Each of the four errors of [parse_time] occurs: the
    [TypeError] for [None]; [OverflowError] for the int [10^400] and
    for 61 seconds carried into [10^400] minutes; the [ValueError] of
    a not-a-number for ["1e400"], an infinity whose quotient by sixty
    is not a number, and for ["nan"]; the digit limit for 4301 digits
    of hours, where 4300 digits are read. *)
Theorem parse_time_error_examples :
  B64.parse_time YNone
  = Raise (TypeError "float() argument must be a string or a real number")
  /\ B64.parse_time (YInt (10 ^ 400)) = Raise OverflowError
  /\ B64.parse_time (YStr heavy_carry) = Raise OverflowError
  /\ B64.parse_time (YStr "1e400")
     = Raise (ValueError "cannot convert float NaN to integer")
  /\ B64.parse_time (YStr "nan")
     = Raise (ValueError "cannot convert float NaN to integer")
  /\ B64.parse_time (YStr long_hours_colon) = Raise B64.digit_limit
  /\ B64.parse_time (YStr (string_of_list_ascii
                             (zeros 4300 ++ list_ascii_of_string ":00:00")))
     = Ok (B64.mkTimestamp (B64.Int 0) (B64.Int 0) (B64.Float (F_fin 0))).
Proof.
  do 6 (split; [vm_compute; reflexivity |]). vm_compute; reflexivity.
Qed.
